(** * The row-classification pipeline of mappingClarity

    A shallow embedding of the two pipeline programs of the repository:

    - the batched Cloud Run job ([processBatch], [main] and the handler
      attached to [main()] with [.catch]), and
    - the per-row cloud function [processCSV],

    together with the JavaScript operations they apply to the untrusted
    reply of the classification oracle.  External collaborators (the
    document store, the blob store, the CSV parser, the generative model)
    appear as inputs of a run and as the ordered log of the calls a run
    makes to them. *)

From Stdlib Require Import Floats Ascii.
From stdpp Require Import gmap strings list pretty.

(** ** JavaScript values and completions *)

#[local] Set Warnings "-register-all".

(** What [JSON.parse] can return, plus [undefined], which reading a
    missing property yields.  An object is the list of its own
    properties; the first binding of a key is the one a read sees. *)
Inductive jsval : Type :=
| JUndefined
| JNull
| JBool (b : bool)
| JNum (x : float)
| JStr (s : string)
| JArr (elems : list jsval)
| JObj (props : list (string * jsval)).

(** Errors a run can raise.  [TypeError] is the runtime's; the next three
    are the [new Error(...)] sites of the job; the last three are
    rejections of the external services. *)
Inductive JsError : Type :=
| TypeError
| MissingArguments
| InvalidFilePath (filePath : string)
| DefinitionsNotFound
| SourceReadError (message : string)
| OracleRejected
| WriteRejected.

(** A JavaScript completion: a value, or an exception on its way up. *)
Inductive completion (A : Type) : Type :=
| Normal (a : A)
| Throw (e : JsError).
Arguments Normal {A} a.
Arguments Throw {A} e.

#[global] Instance completion_ret : MRet completion := fun _ a => Normal a.
#[global] Instance completion_bind : MBind completion := fun _ _ f m =>
  match m with
  | Normal a => f a
  | Throw e => Throw e
  end.

Fixpoint own_property (props : list (string * jsval)) (k : string) : option jsval :=
  match props with
  | [] => None
  | (k', v) :: rest => if String.eqb k' k then Some v else own_property rest k
  end.

(** [ToBoolean]: the falsy values are [undefined], [null], [false], [+0],
    [-0], [NaN] and the empty string. *)
Definition truthy (v : jsval) : bool :=
  match v with
  | JUndefined | JNull => false
  | JBool b => b
  | JNum x => negb (PrimFloat.is_zero x || PrimFloat.is_nan x)
  | JStr s => negb (String.eqb s "")
  | JArr _ | JObj _ => true
  end.

(** [v[k]] and [v.k] for a key [k] that no built-in prototype defines and
    that is neither an array index nor [length]: the job reads
    [transaction_N], [cost_pool], [cost_sub_pool], [confidence] and
    [reasoning] only.  Reading a property of [null] or [undefined]
    throws; of an object, the own property or [undefined]; of any other
    value, [undefined]. *)
Definition Get (v : jsval) (k : string) : completion jsval :=
  match v with
  | JUndefined | JNull => Throw TypeError
  | JObj props => Normal (default JUndefined (own_property props k))
  | _ => Normal JUndefined
  end.

Section Runtime.

(** The two conversions between numbers and text are the runtime's
    ([Number::toString] and [StringToNumber]); every result below holds
    whatever they compute. *)
Variable NumberToString : float -> string.
Variable StringToNumber : string -> float.

(** [ToString], which is also [ToPropertyKey] on these values.  An
    array joins the strings of its elements with commas, [null] and
    [undefined] elements giving the empty string.  A parsed object has
    no callable own member: with an own [toString] property neither
    [toString] nor [valueOf] yields a primitive and the conversion
    throws; without one, [Object.prototype.toString] answers. *)
Fixpoint ToString (v : jsval) : completion string :=
  match v with
  | JUndefined => Normal "undefined"
  | JNull => Normal "null"
  | JBool true => Normal "true"
  | JBool false => Normal "false"
  | JNum x => Normal (NumberToString x)
  | JStr s => Normal s
  | JArr elems =>
      (fix join (l : list jsval) : completion string :=
         match l with
         | [] => Normal ""
         | x :: rest =>
             s ← match x with
                 | JUndefined | JNull => Normal ""
                 | _ => ToString x
                 end;
             match rest with
             | [] => Normal s
             | _ => t ← join rest; Normal (s +:+ "," +:+ t)
             end
         end) elems
  | JObj props =>
      match own_property props "toString" with
      | Some _ => Throw TypeError
      | None => Normal "[object Object]"
      end
  end.

(** [Number(v)].  Objects and arrays go through [ToPrimitive] with hint
    number: [valueOf] returns the object itself, so the string
    conversion decides. *)
Definition ToNumber (v : jsval) : completion float :=
  match v with
  | JUndefined => Normal nan
  | JNull => Normal 0%float
  | JBool true => Normal 1%float
  | JBool false => Normal 0%float
  | JNum x => Normal x
  | JStr s => Normal (StringToNumber s)
  | JArr _ | JObj _ => s ← ToString v; Normal (StringToNumber s)
  end.

End Runtime.

(** ** Data model *)

(** The taxonomy document: cost-pool name to definition and sub-pools.
    It is a plain object, so a read by key sees its own properties first
    and those of [Object.prototype] behind them. *)
Record SubPool : Type := { name : string; sub_definition : string }.
Record PoolData : Type := { definition : string; sub_pools : list SubPool }.
Abbreviation Taxonomy := (gmap string PoolData).

Definition ObjectPrototypeKeys : list string :=
  [ "constructor"; "__defineGetter__"; "__defineSetter__"; "hasOwnProperty";
    "__lookupGetter__"; "__lookupSetter__"; "isPrototypeOf";
    "propertyIsEnumerable"; "toString"; "valueOf"; "__proto__";
    "toLocaleString" ].

(** The three things [structuredDefs[key]] can be. *)
Inductive TaxonomyRead : Type :=
| OwnPool (pool : PoolData)
| Inherited
| Missing.

Definition readTaxonomy (structuredDefs : Taxonomy) (key : string) : TaxonomyRead :=
  match structuredDefs !! key with
  | Some pool => OwnPool pool
  | None => if bool_decide (key ∈ ObjectPrototypeKeys) then Inherited else Missing
  end.

(** A parsed CSV row (header to cell) and the row with its stream index. *)
Abbreviation RowData := (list (string * string)).
Record SourceRow : Type := { index : nat; data : RowData }.

(** The [classification] object of both programs. *)
Record Classification : Type := {
  cost_pool : jsval;
  cost_sub_pool : jsval;
  confidence : jsval;
  reasoning : jsval
}.

Definition Unclassified : string := "Unclassified".

(** A value of a row document, and the document as the ordered list of
    its fields. *)
Inductive DocValue : Type :=
| DRow (row : RowData)
| DJs (v : jsval)
| DIndex (n : nat).
Abbreviation Document := (list (string * DocValue)).

Fixpoint field (doc : Document) (k : string) : option DocValue :=
  match doc with
  | [] => None
  | (k', v) :: rest => if String.eqb k' k then Some v else field rest k
  end.

(** Defining a property in an object literal: a key already present keeps
    its place and takes the new value, a new key goes last. *)
Fixpoint define (k : string) (v : DocValue) (doc : Document) : Document :=
  match doc with
  | [] => [(k, v)]
  | (k', v') :: rest =>
      if String.eqb k' k then (k', v) :: rest else (k', v') :: define k v rest
  end.

(** [{...classification}]: the four own properties, in creation order. *)
Definition spread (c : Classification) (doc : Document) : Document :=
  define "reasoning" (DJs (reasoning c))
    (define "confidence" (DJs (confidence c))
       (define "cost_sub_pool" (DJs (cost_sub_pool c))
          (define "cost_pool" (DJs (cost_pool c)) doc))).

(** Job status values; [status_text] is the string the store receives. *)
Inductive Status : Type :=
| reading
| processing_batch (n : nat)
| processing
| completed
| failed.

Definition status_text (s : Status) : string :=
  match s with
  | reading => "reading"
  | processing_batch n => "processing_batch_" +:+ pretty n
  | processing => "processing"
  | completed => "completed"
  | failed => "failed"
  end.

(** A write to the job document: [set] with the creation fields, or
    [update] with a patch. *)
Inductive JobWrite : Type :=
| JobSet (merge : bool) (id originalFilename : string) (status : Status)
| JobUpdate (status : Status) (totalRows : option nat) (error : option JsError).

Definition written_status (w : JobWrite) : Status :=
  match w with
  | JobSet _ _ _ s => s
  | JobUpdate s _ _ => s
  end.

(** What one oracle call and the parsing of its reply come to: the call
    rejects, or the reply has no text or is not JSON (after the fence
    markers are stripped), or it parses to a value. *)
Inductive OracleOutcome : Type :=
| GenerateRejected
| ReplyUnparseable
| ReplyParsed (v : jsval).

(** ** Runs: the ordered log of external calls, and a completion *)

Inductive Event : Type :=
| JobWritten (tenantId jobId : string) (w : JobWrite)
| RowRead (rowIndex : nat)
| BatchStarted (batch : list SourceRow)
| RowSet (tenantId jobId : string) (rowIndex : nat) (doc : Document)
| WriterClosed.

Definition Run (A : Type) : Type := list Event * completion A.

#[global] Instance Run_ret : MRet Run := fun _ a => ([], Normal a).
#[global] Instance Run_bind : MBind Run := fun _ _ f m =>
  match m with
  | (log, Normal a) => let '(log', r) := f a in (log ++ log', r)
  | (log, Throw e) => (log, Throw e)
  end.

Definition emit (e : Event) : Run unit := ([e], Normal tt).
Definition raise {A} (e : JsError) : Run A := ([], Throw e).
Definition lift {A} (c : completion A) : Run A := ([], c).

(** [for (const x of xs) body(x)], stopping at the first exception. *)
Fixpoint for_of {A} (xs : list A) (body : A -> Run unit) : Run unit :=
  match xs with
  | [] => mret tt
  | x :: rest => _ ← body x; for_of rest body
  end.

(** ** Paths and invocation *)

(** [s.split('/')]. *)
Fixpoint split (s : string) : list string :=
  match s with
  | EmptyString => [EmptyString]
  | String c rest =>
      if Ascii.eqb c "/"%char then EmptyString :: split rest
      else match split rest with
           | [] => [String c EmptyString]
           | part :: parts => String c part :: parts
           end
  end.

(** [parts[i]] as a string; the job reads it only below [parts.length]. *)
Definition part (parts : list string) (i : nat) : string := default "" (parts !! i).

(** Truthiness of a command-line argument that may be absent. *)
Definition given (a : option string) : bool :=
  match a with
  | Some s => negb (String.eqb s "")
  | None => false
  end.

(** One invocation of the job: the arguments after [process.argv.slice(2)],
    the taxonomy document if it exists, the rows the CSV stream yields and
    the error it ends with if any, and the oracle's answer to each batch. *)
Record Invocation : Type := {
  args : list string;
  definitionsDoc : option Taxonomy;
  rows : list RowData;
  readError : option string;
  oracle : list SourceRow -> OracleOutcome
}.

Definition BATCH_SIZE : nat := 50.

(** [getStructuredDefinitions], called once per process with the cache
    still [null]. *)
Definition getStructuredDefinitions (doc : option Taxonomy) : completion Taxonomy :=
  match doc with
  | Some structuredDefs => Normal structuredDefs
  | None => Throw DefinitionsNotFound
  end.

Definition fallback (why : string) : Classification :=
  {| cost_pool := JStr Unclassified;
     cost_sub_pool := JStr Unclassified;
     confidence := JNum 0%float;
     reasoning := JStr why |}.

(** [a || b]. *)
Definition or_else (a b : jsval) : jsval := if truthy a then a else b.

(** [sp.name === v] for a sub-pool name, which is a string. *)
Definition named (sp : SubPool) (v : jsval) : bool :=
  match v with
  | JStr s => String.eqb (name sp) s
  | _ => false
  end.

(** The correlation key of a row, [`transaction_${row.index}`]. *)
Definition transactionKey (rowIndex : nat) : string := "transaction_" +:+ pretty rowIndex.

(** What the [try] of [processBatch] leaves in [aiResponse]: the parsed
    reply, or the empty object its [catch] assigns. *)
Definition aiResponseOf (outcome : OracleOutcome) : jsval :=
  match outcome with
  | ReplyParsed v => v
  | GenerateRejected | ReplyUnparseable => JObj []
  end.

Section Pipeline.

Variable NumberToString : float -> string.
Variable StringToNumber : string -> float.

(** The taxonomy check both programs apply to one oracle entry:
<<
    if (result.cost_pool && structuredDefs[result.cost_pool]) {
        const isValidSubpool = structuredDefs[result.cost_pool]
            .sub_pools.some(sp => sp.name === result.cost_sub_pool);
        if (isValidSubpool) { classification = { ... }; }
    }
>>
    An inherited member of the taxonomy object is truthy and has no
    [sub_pools], so [.some] is called on [undefined]. *)
Definition validate (structuredDefs : Taxonomy) (otherwise : Classification)
    (result : jsval) : completion Classification :=
  pool ← Get result "cost_pool";
  if truthy pool then
    key ← ToString NumberToString pool;
    match readTaxonomy structuredDefs key with
    | Missing => Normal otherwise
    | Inherited => Throw TypeError
    | OwnPool poolData =>
        sub ← Get result "cost_sub_pool";
        if existsb (fun sp => named sp sub) (sub_pools poolData) then
          conf ← Get result "confidence";
          why ← Get result "reasoning";
          Normal {| cost_pool := pool;
                    cost_sub_pool := sub;
                    confidence := or_else conf (JNum 0%float);
                    reasoning := or_else why (JStr "No reasoning provided.") |}
        else Normal otherwise
    end
  else Normal otherwise.

(** [Number(classification.confidence) || 0.0]. *)
Definition storedConfidence (c : Classification) : completion float :=
  x ← ToNumber NumberToString StringToNumber (confidence c);
  Normal (if truthy (JNum x) then x else 0%float).

(** The object literal handed to the writer:
    [{ original_data, ...classification, row_index, confidence }]. *)
Definition rowDocument (original : RowData) (rowIndex : nat) (c : Classification)
    : completion Document :=
  x ← storedConfidence c;
  Normal (define "confidence" (DJs (JNum x))
            (define "row_index" (DIndex rowIndex)
               (spread c (define "original_data" (DRow original) [])))).

(** The body of [for (const row of batch)] in [processBatch]. *)
Definition classifyRow (structuredDefs : Taxonomy) (aiResponse : jsval)
    (tenantId jobId : string) (row : SourceRow) : Run unit :=
  result ← lift (Get aiResponse (transactionKey (index row)));
  classification ←
    lift (if truthy result
          then validate structuredDefs
                 (fallback "AI response was missing, invalid, or could not be parsed.")
                 result
          else Normal (fallback "AI response was missing, invalid, or could not be parsed."));
  doc ← lift (rowDocument (data row) (index row) classification);
  emit (RowSet tenantId jobId (index row) doc).

(** [processBatch].  Its first statement reads [batch[0].index]; the
    [try] around the oracle call and [JSON.parse] turns every exception
    into the empty object. *)
Definition processBatch (ask : list SourceRow -> OracleOutcome) (batch : list SourceRow)
    (structuredDefs : Taxonomy) (tenantId jobId : string) : Run unit :=
  _ ← match batch with
      | [] => raise TypeError
      | _ :: _ => emit (BatchStarted batch)
      end;
  let aiResponse := aiResponseOf (ask batch) in
  for_of batch (classifyRow structuredDefs aiResponse tenantId jobId).

(** The [for await (const row of csvStream)] loop of [main]; the pair
    is [(batch, rowIndex)] when the stream ends. *)
Fixpoint readRows (batchSize : nat) (ask : list SourceRow -> OracleOutcome)
    (structuredDefs : Taxonomy) (tenantId jobId : string)
    (stream : list RowData) (batch : list SourceRow) (rowIndex : nat)
    : Run (list SourceRow * nat) :=
  match stream with
  | [] => mret (batch, rowIndex)
  | row :: rest =>
      _ ← emit (RowRead rowIndex);
      let batch := batch ++ [{| index := rowIndex; data := row |}] in
      let rowIndex := S rowIndex in
      if batchSize <=? length batch then
        _ ← emit (JobWritten tenantId jobId
                    (JobUpdate (processing_batch (rowIndex / batchSize)) None None));
        _ ← processBatch ask batch structuredDefs tenantId jobId;
        readRows batchSize ask structuredDefs tenantId jobId rest [] rowIndex
      else readRows batchSize ask structuredDefs tenantId jobId rest batch rowIndex
  end.

(** [main], with the batch size as a parameter.  The [set] of the
    [reading] status is issued together with the taxonomy fetch. *)
Definition main_sized (batchSize : nat) (inv : Invocation) : Run unit :=
  let gcsBucket := args inv !! 0 in
  let gcsFile := args inv !! 1 in
  if negb (given gcsBucket) || negb (given gcsFile) then raise MissingArguments else
  let filePath := default "" gcsFile in
  let pathParts := split filePath in
  if (length pathParts <? 4) || negb (String.eqb (part pathParts 0) "uploads")
  then raise (InvalidFilePath filePath) else
  let tenantId := part pathParts 1 in
  let jobId := part pathParts 2 in
  let originalFilename := part pathParts 3 in
  _ ← emit (JobWritten tenantId jobId (JobSet true jobId originalFilename reading));
  structuredDefs ← lift (getStructuredDefinitions (definitionsDoc inv));
  '(batch, rowIndex) ←
    readRows batchSize (oracle inv) structuredDefs tenantId jobId (rows inv) [] 0;
  _ ← match readError inv with
      | Some message => raise (SourceReadError message)
      | None => mret tt
      end;
  _ ← (if 0 <? length batch
       then processBatch (oracle inv) batch structuredDefs tenantId jobId
       else mret tt);
  _ ← emit WriterClosed;
  emit (JobWritten tenantId jobId (JobUpdate completed (Some rowIndex) None)).

(** The handler of [main().catch(...)]: it marks the job failed when
    the file argument has at least four segments. *)
Definition onFailure (inv : Invocation) (err : JsError) : list Event :=
  let gcsFile := args inv !! 1 in
  if given gcsFile then
    let pathParts := split (default "" gcsFile) in
    if 4 <=? length pathParts
    then [JobWritten (part pathParts 1) (part pathParts 2)
            (JobUpdate failed None (Some err))]
    else []
  else [].

(** The whole script: [main().catch(handler)]. *)
Definition job_sized (batchSize : nat) (inv : Invocation) : Run unit :=
  match main_sized batchSize inv with
  | (log, Normal tt) => (log, Normal tt)
  | (log, Throw err) => (log ++ onFailure inv err, Throw err)
  end.

Definition main : Invocation -> Run unit := main_sized BATCH_SIZE.
Definition job : Invocation -> Run unit := job_sized BATCH_SIZE.

End Pipeline.

(** ** The per-row cloud function *)

(** The storage event: [cloudEvent.data], with its [name] and [bucket]. *)
Record FileData : Type := { fileName : option string; bucket : option string }.

(** One delivery of the event: the event data, the taxonomy that the
    cache or the store yields if there is one, the records the CSV stream
    yields and the error it ends with if any, the oracle's answer for
    each record, and whether the store rejects the write of each row
    document. *)
Record Delivery : Type := {
  eventData : option FileData;
  taxonomyDoc : option Taxonomy;
  records : list RowData;
  streamError : option string;
  answer : nat -> OracleOutcome;
  rowWriteRejected : nat -> bool
}.

(** [await Promise.all(promises)]: every callback has started and logs
    its calls (here in record order); the first rejection is the
    outcome. *)
Fixpoint Promise_all (promises : list (Run unit)) : Run unit :=
  match promises with
  | [] => mret tt
  | (log, outcome) :: rest =>
      let '(log', outcome') := Promise_all rest in
      (log ++ log', match outcome with
                    | Throw e => Throw e
                    | Normal _ => outcome'
                    end)
  end.

Section PerRow.

Variable NumberToString : float -> string.
Variable StringToNumber : string -> float.

(** The callback of [records.map(async (row, index) => ...)].  The
    oracle call is outside its [try]; stripping, parsing and the
    taxonomy check are inside, and its [catch] only logs. *)
Definition classifyRecord (structuredDefs : Taxonomy) (tenantId jobId : string)
    (d : Delivery) (rowIndex : nat) (row : RowData) : Run unit :=
  let otherwise := fallback "AI response could not be parsed or validated." in
  match answer d rowIndex with
  | GenerateRejected => raise OracleRejected
  | reply =>
      let classification :=
        match reply with
        | ReplyParsed suggestion =>
            match validate NumberToString structuredDefs otherwise suggestion with
            | Normal c => c
            | Throw _ => otherwise
            end
        | _ => otherwise
        end in
      doc ← lift (rowDocument NumberToString StringToNumber row rowIndex classification);
      if rowWriteRejected d rowIndex then raise WriteRejected
      else emit (RowSet tenantId jobId rowIndex doc)
  end.

(** The [try] block of [processCSV]. *)
Definition processCSV_try (d : Delivery) : Run unit :=
  structuredDefs ← lift (getStructuredDefinitions (taxonomyDoc d));
  if size structuredDefs =? 0 then mret tt else
  match eventData d with
  | None => mret tt
  | Some fileData =>
      if negb (given (fileName fileData)) || negb (given (bucket fileData))
      then mret tt else
      let filePath := default "" (fileName fileData) in
      let pathParts := split filePath in
      if (length pathParts <? 4) || negb (String.eqb (part pathParts 0) "uploads")
      then mret tt else
      let tenantId := part pathParts 1 in
      let jobId := part pathParts 2 in
      let originalFilename := part pathParts 3 in
      _ ← emit (JobWritten tenantId jobId (JobSet false jobId originalFilename reading));
      _ ← for_of (seq 0 (length (records d))) (fun i => emit (RowRead i));
      _ ← match streamError d with
          | Some message => raise (SourceReadError message)
          | None => mret tt
          end;
      _ ← emit (JobWritten tenantId jobId
                  (JobUpdate processing (Some (length (records d))) None));
      _ ← Promise_all (imap (classifyRecord structuredDefs tenantId jobId d) (records d));
      emit (JobWritten tenantId jobId (JobUpdate completed None None))
  end.

(** [processCSV]: the [catch] of the handler logs the error to the
    console and returns. *)
Definition processCSV (d : Delivery) : Run unit :=
  match processCSV_try d with
  | (log, Normal tt) => (log, Normal tt)
  | (log, Throw _) => (log, Normal tt)
  end.

End PerRow.

(** ** Reading a log *)

Definition jobWrites (log : list Event) : list JobWrite :=
  omap (fun e => match e with JobWritten _ _ w => Some w | _ => None end) log.

Definition statuses (log : list Event) : list Status := written_status <$> jobWrites log.

Definition rowsRead (log : list Event) : list nat :=
  omap (fun e => match e with RowRead i => Some i | _ => None end) log.

Definition batches (log : list Event) : list (list SourceRow) :=
  omap (fun e => match e with BatchStarted b => Some b | _ => None end) log.

Definition rowWrites (log : list Event) : list (nat * Document) :=
  omap (fun e => match e with RowSet _ _ i doc => Some (i, doc) | _ => None end) log.

(** The job document, as far as the pipeline writes it, and the effect of
    a write on it: [set] with merge keeps the fields it does not name,
    [set] without replaces the document, [update] patches it. *)
Record JobDoc : Type := {
  doc_status : option Status;
  doc_totalRows : option nat;
  doc_error : option JsError
}.

Definition noJobDoc : JobDoc :=
  {| doc_status := None; doc_totalRows := None; doc_error := None |}.

Definition applyWrite (d : JobDoc) (w : JobWrite) : JobDoc :=
  match w with
  | JobSet true _ _ s =>
      {| doc_status := Some s; doc_totalRows := doc_totalRows d; doc_error := doc_error d |}
  | JobSet false _ _ s =>
      {| doc_status := Some s; doc_totalRows := None; doc_error := None |}
  | JobUpdate s total err =>
      {| doc_status := Some s;
         doc_totalRows := from_option Some (doc_totalRows d) total;
         doc_error := from_option Some (doc_error d) err |}
  end.

Definition jobDocAfter (d : JobDoc) (log : list Event) : JobDoc :=
  foldl applyWrite d (jobWrites log).

(** The rows of a stream with their indices, counting from [start]. *)
Fixpoint numbered (start : nat) (stream : list RowData) : list SourceRow :=
  match stream with
  | [] => []
  | row :: rest => {| index := start; data := row |} :: numbered (S start) rest
  end.

(** The batches the loop of [main] and the statement after it hand to
    [processBatch] when no call throws. *)
Fixpoint batcher (batchSize : nat) (stream : list SourceRow) (batch : list SourceRow)
    : list (list SourceRow) :=
  match stream with
  | [] => if 0 <? length batch then [batch] else []
  | row :: rest =>
      let batch := batch ++ [row] in
      if batchSize <=? length batch then batch :: batcher batchSize rest []
      else batcher batchSize rest batch
  end.

(** ** Properties, as the specification words them and as the code has them *)

(** Taxonomy integrity as the specification states it, on a document. *)
Definition integrity_as_specified (structuredDefs : Taxonomy) (doc : Document) : Prop :=
  exists pool sub,
    field doc "cost_pool" = Some (DJs (JStr pool)) /\
    field doc "cost_sub_pool" = Some (DJs (JStr sub)) /\
    (is_Some (structuredDefs !! pool) \/ pool = Unclassified) /\
    (pool = Unclassified -> sub = Unclassified) /\
    (pool <> Unclassified ->
       exists poolData, structuredDefs !! pool = Some poolData /\
                        In sub (map name (sub_pools poolData))).

(** Taxonomy integrity as the code keeps it: the sentinel pair, or a
    pool whose key is an own key of the taxonomy together with the name
    of one of that pool's sub-pools. *)
Definition integrity (NumberToString : float -> string)
    (structuredDefs : Taxonomy) (doc : Document) : Prop :=
  exists pool sub,
    field doc "cost_pool" = Some (DJs pool) /\
    field doc "cost_sub_pool" = Some (DJs (JStr sub)) /\
    ((pool = JStr Unclassified /\ sub = Unclassified) \/
     exists key poolData,
       ToString NumberToString pool = Normal key /\
       structuredDefs !! key = Some poolData /\
       In sub (map name (sub_pools poolData))).

(** A confidence in the closed unit interval. *)
Definition unit_interval (x : float) : Prop :=
  PrimFloat.leb 0%float x = true /\ PrimFloat.leb x 1%float = true.

Definition confidence_as_specified (doc : Document) : Prop :=
  exists x, field doc "confidence" = Some (DJs (JNum x)) /\ unit_interval x.

(** The document shape of the specification. *)
Definition shape_as_specified (doc : Document) : Prop :=
  Forall (fun k => is_Some (field doc k))
    ["original_data"; "cost_pool"; "cost_sub_pool"; "confidence"; "reasoning";
     "row_index"; "manually_edited"] /\
  field doc "manually_edited" = Some (DJs (JBool false)).

(** The fields the job writes, in the order the object literal creates
    them. *)
Definition writtenFields : list string :=
  ["original_data"; "cost_pool"; "cost_sub_pool"; "confidence"; "reasoning"; "row_index"].

(** A property of every row document in a log. *)
Definition everyRowSet (P : nat -> Document -> Prop) (log : list Event) : Prop :=
  Forall (fun e => match e with RowSet _ _ i doc => P i doc | _ => True end) log.

(** The confidence the reply of a batch holds for a row. *)
Definition suppliedConfidence (outcome : OracleOutcome) (rowIndex : nat) : completion jsval :=
  entry ← Get (aiResponseOf outcome) (transactionKey rowIndex);
  Get entry "confidence".

(** ** Lemmas on runs *)

Section RunLemmas.

Context {A B : Type}.

Lemma bind_log (m : Run A) (f : A -> Run B) :
  (m ≫= f).1 = m.1 ++ match m.2 with Normal a => (f a).1 | Throw _ => [] end.
Proof.
  destruct m as [log [a|e]]; unfold mbind, Run_bind; simpl.
  - destruct (f a); reflexivity.
  - symmetry; apply app_nil_r.
Qed.

Lemma bind_outcome (m : Run A) (f : A -> Run B) :
  (m ≫= f).2 = match m.2 with Normal a => (f a).2 | Throw e => Throw e end.
Proof.
  destruct m as [log [a|e]]; unfold mbind, Run_bind; simpl; [destruct (f a)|]; reflexivity.
Qed.

Lemma bind_normal (m : Run A) (f : A -> Run B) log b :
  m ≫= f = (log, Normal b) ->
  exists l1 a l2, m = (l1, Normal a) /\ f a = (l2, Normal b) /\ log = l1 ++ l2.
Proof.
  destruct m as [l1 [a|e]]; unfold mbind, Run_bind; simpl.
  - destruct (f a) as [l2 r] eqn:E. intros H. injection H as <- ->.
    exists l1, a, l2. auto.
  - intros H. discriminate H.
Qed.

End RunLemmas.

Lemma bind_lift {A B} (a : A) (f : A -> Run B) : lift (Normal a) ≫= f = f a.
Proof. unfold mbind, Run_bind, lift. by destruct (f a). Qed.

Lemma bind_emit {B} (e : Event) (f : unit -> Run B) :
  emit e ≫= f = (e :: (f tt).1, (f tt).2).
Proof. unfold mbind, Run_bind, emit. by destruct (f tt). Qed.

Lemma bind_ret {A B} (a : A) (f : A -> Run B) : (mret a : Run A) ≫= f = f a.
Proof. unfold mbind, Run_bind, mret, Run_ret. by destruct (f a). Qed.

Section Always.

Variable Q : Event -> Prop.

Definition always {A} (r : Run A) : Prop := Forall Q r.1.

Lemma always_bind {A B} (m : Run A) (f : A -> Run B) :
  always m -> (forall a, always (f a)) -> always (m ≫= f).
Proof.
  unfold always. intros Hm Hf. rewrite bind_log. apply Forall_app. split; [done|].
  destruct m.2; [apply Hf | constructor].
Qed.

Lemma always_bind_normal {A B} (m : Run A) (f : A -> Run B) :
  always m -> (forall a, m.2 = Normal a -> always (f a)) -> always (m ≫= f).
Proof.
  unfold always. intros Hm Hf. rewrite bind_log. apply Forall_app. split; [done|].
  destruct m.2; [by apply Hf | constructor].
Qed.

Lemma always_silent {A} (c : completion A) : always (lift c).
Proof. constructor. Qed.

Lemma always_raise {A} e : always (@raise A e).
Proof. constructor. Qed.

Lemma always_ret {A} (a : A) : always (mret a : Run A).
Proof. constructor. Qed.

Lemma always_emit e : Q e -> always (emit e).
Proof. intros. repeat constructor. done. Qed.

Lemma always_for_of {A} (xs : list A) body :
  (forall x, In x xs -> always (body x)) -> always (for_of xs body).
Proof.
  intros Hb. induction xs as [|x xs IH]; simpl.
  - apply always_ret.
  - apply always_bind; [apply Hb; by left|].
    intros _. apply IH. intros y Hy. apply Hb. by right.
Qed.

End Always.

(** ** One row: the taxonomy check and the document *)

Lemma named_true sp v : named sp v = true -> v = JStr (name sp).
Proof.
  destruct v; simpl; try discriminate.
  intros H. apply String.eqb_eq in H. by subst.
Qed.

Lemma some_named pools v :
  existsb (fun sp => named sp v) pools = true ->
  exists s, v = JStr s /\ In s (map name pools).
Proof.
  intros H. apply existsb_exists in H as (sp & Hin & Hn).
  exists (name sp). split; [by apply named_true | by apply in_map].
Qed.

Lemma is_nan_zero : PrimFloat.is_nan 0%float = false.
Proof. reflexivity. Qed.

Section RowLemmas.

Variable NumberToString : float -> string.
Variable StringToNumber : string -> float.

Local Abbreviation validate := (validate NumberToString).
Local Abbreviation storedConfidence := (storedConfidence NumberToString StringToNumber).
Local Abbreviation rowDocument := (rowDocument NumberToString StringToNumber).
Local Abbreviation ToNumber := (ToNumber NumberToString StringToNumber).

(** What [validate] returns when it returns: the classification it was
    given to fall back on, or the oracle's pair, checked. *)
Lemma validate_normal structuredDefs otherwise result c :
  validate structuredDefs otherwise result = Normal c ->
  c = otherwise \/
  exists pool key poolData sub conf why,
    Get result "cost_pool" = Normal pool /\
    ToString NumberToString pool = Normal key /\
    structuredDefs !! key = Some poolData /\
    existsb (fun sp => named sp sub) (sub_pools poolData) = true /\
    Get result "confidence" = Normal conf /\
    c = {| cost_pool := pool; cost_sub_pool := sub;
           confidence := or_else conf (JNum 0%float);
           reasoning := or_else why (JStr "No reasoning provided.") |}.
Proof.
  unfold validate.
  destruct (Get result "cost_pool") as [pool|] eqn:Hpool; simpl; [|discriminate].
  destruct (truthy pool); [|intros [= <-]; by left].
  destruct (ToString NumberToString pool) as [key|] eqn:Hkey; simpl; [|discriminate].
  unfold readTaxonomy.
  destruct (structuredDefs !! key) as [poolData|] eqn:Hlook.
  - destruct (Get result "cost_sub_pool") as [sub|] eqn:Hsub; simpl; [|discriminate].
    destruct (existsb _ _) eqn:Hex; [|intros [= <-]; by left].
    destruct (Get result "confidence") as [conf|] eqn:Hconf; simpl; [|discriminate].
    destruct (Get result "reasoning") as [why|] eqn:Hwhy; simpl; [|discriminate].
    intros [= <-]. right. by exists pool, key, poolData, sub, conf, why.
  - destruct (bool_decide _); [discriminate|]. intros [= <-]. by left.
Qed.

(** The stored confidence is a number, never [NaN]: zero, or the
    number the classification's confidence converts to. *)
Lemma storedConfidence_normal c x :
  storedConfidence c = Normal x ->
  PrimFloat.is_nan x = false /\
  (x = 0%float \/ ToNumber (confidence c) = Normal x).
Proof.
  unfold storedConfidence.
  destruct (ToNumber (confidence c)) as [y|] eqn:Hy; simpl; [|discriminate].
  destruct (PrimFloat.is_zero y || PrimFloat.is_nan y) eqn:Hz; simpl; intros [= <-].
  - split; [apply is_nan_zero | by left].
  - apply orb_false_iff in Hz as [_ Hnan]. split; [done | by right].
Qed.

Lemma storedConfidence_fallback why : storedConfidence (fallback why) = Normal 0%float.
Proof. reflexivity. Qed.

Lemma rowDocument_normal original rowIndex c doc :
  rowDocument original rowIndex c = Normal doc ->
  exists x,
    storedConfidence c = Normal x /\
    doc = [ ("original_data", DRow original);
            ("cost_pool", DJs (cost_pool c));
            ("cost_sub_pool", DJs (cost_sub_pool c));
            ("confidence", DJs (JNum x));
            ("reasoning", DJs (reasoning c));
            ("row_index", DIndex rowIndex) ].
Proof.
  unfold rowDocument.
  destruct (storedConfidence c) as [x|]; simpl; [|discriminate].
  intros [= <-]. by exists x.
Qed.

(** How the document of a row comes about in [processBatch]. *)
Definition DocumentOf (structuredDefs : Taxonomy) (aiResponse : jsval)
    (row : SourceRow) (doc : Document) : Prop :=
  exists result c,
    Get aiResponse (transactionKey (index row)) = Normal result /\
    (if truthy result
     then validate structuredDefs
            (fallback "AI response was missing, invalid, or could not be parsed.") result
     else Normal (fallback "AI response was missing, invalid, or could not be parsed."))
      = Normal c /\
    rowDocument (data row) (index row) c = Normal doc.

Lemma classifyRow_spec structuredDefs aiResponse tenantId jobId row :
  match classifyRow NumberToString StringToNumber structuredDefs aiResponse tenantId jobId row with
  | (log, Normal _) =>
      exists doc, log = [RowSet tenantId jobId (index row) doc] /\
                  DocumentOf structuredDefs aiResponse row doc
  | (log, Throw _) => log = []
  end.
Proof.
  unfold classifyRow, DocumentOf.
  destruct (Get aiResponse _) as [result|]; [|reflexivity].
  unfold mbind at 1, Run_bind, lift; simpl.
  match goal with |- context [if truthy result then ?a else ?b] =>
    destruct (if truthy result then a else b) as [c|] eqn:Hc end; [|reflexivity].
  simpl.
  destruct (rowDocument (data row) (index row) c) as [doc|] eqn:Hdoc; [|reflexivity].
  simpl. exists doc. split; [reflexivity|]. by exists result, c.
Qed.

End RowLemmas.

(** ** One batch *)

Lemma jobWrites_app l1 l2 : jobWrites (l1 ++ l2) = jobWrites l1 ++ jobWrites l2.
Proof. apply omap_app. Qed.

Lemma rowsRead_app l1 l2 : rowsRead (l1 ++ l2) = rowsRead l1 ++ rowsRead l2.
Proof. apply omap_app. Qed.

Lemma batches_app l1 l2 : batches (l1 ++ l2) = batches l1 ++ batches l2.
Proof. apply omap_app. Qed.

Lemma rowWrites_app l1 l2 : rowWrites (l1 ++ l2) = rowWrites l1 ++ rowWrites l2.
Proof. apply omap_app. Qed.

Lemma statuses_app l1 l2 : statuses (l1 ++ l2) = statuses l1 ++ statuses l2.
Proof. unfold statuses. by rewrite jobWrites_app, fmap_app. Qed.

Create Rewrite HintDb logs.
#[global] Hint Rewrite jobWrites_app rowsRead_app batches_app rowWrites_app statuses_app : logs.

(** An event that is neither a job write nor a row read. *)
Definition quiet (e : Event) : Prop :=
  match e with
  | JobWritten _ _ _ | RowRead _ => False
  | _ => True
  end.

Lemma quiet_log log : Forall quiet log -> jobWrites log = [] /\ rowsRead log = [].
Proof.
  induction 1 as [|e log He _ [IH1 IH2]]; [done|].
  destruct e; simpl in He; try contradiction; by split.
Qed.

Lemma everyRowSet_rowWrites P log :
  everyRowSet P log <-> Forall (fun w => P w.1 w.2) (rowWrites log).
Proof.
  unfold everyRowSet. induction log as [|e log IH]; simpl.
  - split; constructor.
  - destruct e; simpl; rewrite Forall_cons; rewrite ?Forall_cons; simpl; tauto.
Qed.

Section BatchLemmas.

Variable NumberToString : float -> string.
Variable StringToNumber : string -> float.

Local Abbreviation classifyRow := (classifyRow NumberToString StringToNumber).
Local Abbreviation processBatch := (processBatch NumberToString StringToNumber).
Local Abbreviation DocumentOf := (DocumentOf NumberToString StringToNumber).

(** Every document a batch writes is the document of one of its rows. *)
Lemma processBatch_documents ask batch structuredDefs tenantId jobId :
  everyRowSet
    (fun i doc => exists row,
         In row batch /\ index row = i /\
         DocumentOf structuredDefs (aiResponseOf (ask batch)) row doc)
    (processBatch ask batch structuredDefs tenantId jobId).1.
Proof.
  unfold processBatch. apply always_bind.
  - destruct batch; [apply always_raise | by apply always_emit].
  - intros _. apply always_for_of. intros row Hin.
    pose proof (classifyRow_spec NumberToString StringToNumber structuredDefs
                  (aiResponseOf (ask batch)) tenantId jobId row) as H.
    unfold always. destruct (classifyRow _ _ _ _ _) as [log [u|e]]; simpl.
    + destruct H as (doc & -> & Hdoc). repeat constructor. by exists row.
    + subst. constructor.
Qed.

Lemma processBatch_quiet ask batch structuredDefs tenantId jobId :
  Forall quiet (processBatch ask batch structuredDefs tenantId jobId).1.
Proof.
  unfold processBatch. apply always_bind.
  - destruct batch; [apply always_raise | by apply always_emit].
  - intros _. apply always_for_of. intros row _.
    pose proof (classifyRow_spec NumberToString StringToNumber structuredDefs
                  (aiResponseOf (ask batch)) tenantId jobId row) as H.
    unfold always. destruct (classifyRow _ _ _ _ _) as [log [u|e]]; simpl.
    + destruct H as (doc & -> & _). by repeat constructor.
    + subst. constructor.
Qed.

Lemma for_of_rows_normal structuredDefs aiResponse tenantId jobId batch log u :
  for_of batch (classifyRow structuredDefs aiResponse tenantId jobId) = (log, Normal u) ->
  batches log = [] /\ map fst (rowWrites log) = map index batch.
Proof.
  revert log. induction batch as [|row rest IH]; intros log; simpl.
  - intros [= <-]. done.
  - intros H. apply bind_normal in H as (l1 & a & l2 & H1 & H2 & ->).
    pose proof (classifyRow_spec NumberToString StringToNumber structuredDefs
                  aiResponse tenantId jobId row) as Hrow.
    rewrite H1 in Hrow. destruct Hrow as (doc & -> & _).
    apply IH in H2 as [Hb Hw]. autorewrite with logs. simpl.
    by rewrite Hb, Hw.
Qed.

(** A batch that returns has started once and has set one document per
    row, in the order of the batch. *)
Lemma processBatch_normal ask batch structuredDefs tenantId jobId log u :
  processBatch ask batch structuredDefs tenantId jobId = (log, Normal u) ->
  batch <> [] /\ batches log = [batch] /\ map fst (rowWrites log) = map index batch.
Proof.
  unfold processBatch. intros H.
  apply bind_normal in H as (l1 & a & l2 & H1 & H2 & ->).
  destruct batch as [|row rest]; [discriminate|].
  injection H1 as <- _.
  apply for_of_rows_normal in H2 as [Hb Hw].
  autorewrite with logs. simpl in *. by rewrite Hb, Hw.
Qed.

End BatchLemmas.

(** ** The batcher *)

Lemma succ_div_mod (B n : nat) :
  0 < B ->
  (S (n mod B) = B -> S n / B = S (n / B) /\ S n mod B = 0) /\
  (S (n mod B) < B -> S n / B = n / B /\ S n mod B = S (n mod B)).
Proof.
  intros HB.
  pose proof (Nat.div_mod_eq n B) as Hn.
  split; intros Hr.
  - split.
    + symmetry. apply (Nat.div_unique (S n) B (S (n / B)) 0); nia.
    + symmetry. apply (Nat.mod_unique (S n) B (S (n / B)) 0); nia.
  - split.
    + symmetry. apply (Nat.div_unique (S n) B (n / B) (S (n mod B))); nia.
    + symmetry. apply (Nat.mod_unique (S n) B (n / B) (S (n mod B))); nia.
Qed.

Lemma length_numbered start stream : length (numbered start stream) = length stream.
Proof. revert start. induction stream; intros; simpl; auto. Qed.

Lemma index_numbered start stream : map index (numbered start stream) = seq start (length stream).
Proof. revert start. induction stream; intros; simpl; f_equal; auto. Qed.

(** Batches come out in stream order: put end to end they are the rows
    already held followed by the stream. *)
Lemma batcher_concat batchSize stream batch :
  concat (batcher batchSize stream batch) = batch ++ stream.
Proof.
  revert batch. induction stream as [|row rest IH]; intros batch; simpl.
  - destruct batch; simpl; by rewrite ?app_nil_r.
  - destruct (batchSize <=? length (batch ++ [row])); simpl; rewrite IH.
    + by rewrite <- app_assoc.
    + by rewrite <- app_assoc.
Qed.

(** The sizes of the batches: full ones, then the remainder if there is
    one. *)
Lemma batcher_lengths batchSize stream batch :
  0 < batchSize -> length batch < batchSize ->
  let n := length batch + length stream in
  map length (batcher batchSize stream batch)
  = replicate (n / batchSize) batchSize
    ++ (if n mod batchSize =? 0 then [] else [n mod batchSize]).
Proof.
  intros HB. revert batch.
  induction stream as [|row rest IH]; intros batch Hlen n; subst n; cbn [batcher length].
  - rewrite Nat.add_0_r, Nat.div_small, Nat.mod_small by done.
    destruct batch; reflexivity.
  - rewrite length_app. cbn [length].
    replace (length batch + S (length rest)) with (length batch + 1 + length rest) by lia.
    destruct (batchSize <=? length batch + 1) eqn:Hfull.
    + apply Nat.leb_le in Hfull. assert (length batch + 1 = batchSize) as Heq by lia.
      cbn [map]. rewrite length_app. cbn [length]. rewrite Heq.
      pose proof (IH [] HB) as IH0. cbn [length] in IH0. cbv zeta in IH0.
      rewrite Nat.add_0_l in IH0. rewrite IH0.
      replace (batchSize + length rest) with (1 * batchSize + length rest) by lia.
      rewrite Nat.div_add_l by lia.
      rewrite (Nat.add_comm (1 * batchSize)), Nat.Div0.mod_add.
      reflexivity.
    + apply Nat.leb_gt in Hfull.
      pose proof (IH (batch ++ [row])) as IH1. rewrite length_app in IH1.
      cbn [length] in IH1. cbv zeta in IH1. apply IH1. lia.
Qed.

Lemma ceiling_count (B n : nat) :
  0 < B ->
  length (replicate (n / B) B ++ (if n mod B =? 0 then [] else [n mod B]))
  = (n + B - 1) / B.
Proof.
  intros HB. rewrite length_app, length_replicate.
  pose proof (Nat.div_mod_eq n B) as Hn.
  pose proof (Nat.mod_upper_bound n B ltac:(lia)) as Hr.
  destruct (n mod B =? 0) eqn:E; cbn [length].
  - apply Nat.eqb_eq in E. rewrite Nat.add_0_r.
    apply (Nat.div_unique (n + B - 1) B (n / B) (B - 1)); nia.
  - apply Nat.eqb_neq in E.
    apply (Nat.div_unique (n + B - 1) B (n / B + 1) (n mod B - 1)); nia.
Qed.

(** ** The loop of [main] *)

Section LoopLemmas.

Variable NumberToString : float -> string.
Variable StringToNumber : string -> float.

Local Abbreviation processBatch := (processBatch NumberToString StringToNumber).
Local Abbreviation readRows := (readRows NumberToString StringToNumber).

Lemma readRows_cons batchSize ask structuredDefs tenantId jobId row rest batch rowIndex :
  readRows batchSize ask structuredDefs tenantId jobId (row :: rest) batch rowIndex
  = (_ ← emit (RowRead rowIndex);
     if batchSize <=? length (batch ++ [{| index := rowIndex; data := row |}]) then
       _ ← emit (JobWritten tenantId jobId
                   (JobUpdate (processing_batch (S rowIndex / batchSize)) None None));
       _ ← processBatch ask (batch ++ [{| index := rowIndex; data := row |}])
             structuredDefs tenantId jobId;
       readRows batchSize ask structuredDefs tenantId jobId rest [] (S rowIndex)
     else readRows batchSize ask structuredDefs tenantId jobId rest
            (batch ++ [{| index := rowIndex; data := row |}]) (S rowIndex)).
Proof. reflexivity. Qed.

Lemma processBatch_silent ask batch structuredDefs tenantId jobId :
  jobWrites (processBatch ask batch structuredDefs tenantId jobId).1 = [] /\
  rowsRead (processBatch ask batch structuredDefs tenantId jobId).1 = [].
Proof. apply quiet_log, processBatch_quiet. Qed.

(** A loop that runs to the end of the stream has read every row once,
    has set one document per row of the batches it completed, and has
    started exactly the full batches of the batcher. *)
Lemma readRows_normal batchSize ask structuredDefs tenantId jobId stream :
  forall batch rowIndex log batch' rowIndex',
    readRows batchSize ask structuredDefs tenantId jobId stream batch rowIndex
    = (log, Normal (batch', rowIndex')) ->
    rowIndex' = rowIndex + length stream /\
    rowsRead log = seq rowIndex (length stream) /\
    map fst (rowWrites log) ++ map index batch'
    = map index batch ++ seq rowIndex (length stream) /\
    batches log ++ (if 0 <? length batch' then [batch'] else [])
    = batcher batchSize (numbered rowIndex stream) batch.
Proof.
  induction stream as [|row rest IH]; intros batch rowIndex log batch' rowIndex' H.
  - injection H as <- <- <-. simpl. rewrite app_nil_r. auto with lia.
  - rewrite readRows_cons in H. apply bind_normal in H as (l1 & [] & l2 & H1 & H2 & ->).
    injection H1 as <-.
    destruct (batchSize <=? length (batch ++ [{| index := rowIndex; data := row |}])) eqn:Hfull.
    + apply bind_normal in H2 as (l3 & [] & l4 & H3 & H4 & ->). injection H3 as <-.
      apply bind_normal in H4 as (l5 & [] & l6 & H5 & H6 & ->).
      pose proof (processBatch_silent ask
        (batch ++ [{| index := rowIndex; data := row |}]) structuredDefs tenantId jobId)
        as [_ Hquiet].
      rewrite H5 in Hquiet. simpl in Hquiet.
      apply processBatch_normal in H5 as (_ & Hb & Hw).
      apply IH in H6 as (-> & Hr & Hws & Hbs).
      autorewrite with logs. simpl.
      rewrite Hfull, Hquiet, Hb, Hr, (map_app fst), Hw, map_app. simpl in *.
      repeat split.
      * lia.
      * rewrite <- !app_assoc. rewrite Hws. reflexivity.
      * rewrite Hbs. reflexivity.
    + apply IH in H2 as (-> & Hr & Hws & Hbs).
      autorewrite with logs. simpl. rewrite Hfull, Hr.
      rewrite map_app in Hws. simpl in Hws. rewrite <- app_assoc in Hws. simpl in Hws.
      repeat split; [lia | done | done].
Qed.

(** The statuses such a loop writes: one [processing_batch_N] per full
    batch, numbered from the batch after those already complete. *)
Lemma readRows_statuses batchSize ask structuredDefs tenantId jobId stream :
  0 < batchSize ->
  forall batch rowIndex log batch' rowIndex',
    length batch = rowIndex mod batchSize ->
    readRows batchSize ask structuredDefs tenantId jobId stream batch rowIndex
    = (log, Normal (batch', rowIndex')) ->
    statuses log
    = map processing_batch
        (seq (S (rowIndex / batchSize)) (rowIndex' / batchSize - rowIndex / batchSize)) /\
    length batch' = rowIndex' mod batchSize.
Proof.
  intros HB.
  induction stream as [|row rest IH]; intros batch rowIndex log batch' rowIndex' Hlen H.
  - injection H as <- <- <-. rewrite Nat.sub_diag. by simpl.
  - rewrite readRows_cons in H. apply bind_normal in H as (l1 & [] & l2 & H1 & H2 & ->).
    injection H1 as <-.
    pose proof (Nat.mod_upper_bound rowIndex batchSize ltac:(lia)) as Hr.
    destruct (succ_div_mod batchSize rowIndex HB) as [Hwrap Hstay].
    rewrite length_app in H2. cbn [length] in H2. rewrite Hlen in H2.
    destruct (batchSize <=? rowIndex mod batchSize + 1) eqn:Hfull.
    + apply Nat.leb_le in Hfull.
      destruct Hwrap as [Hq Hm]; [lia|].
      apply bind_normal in H2 as (l3 & [] & l4 & H3 & H4 & ->). injection H3 as <-.
      apply bind_normal in H4 as (l5 & [] & l6 & H5 & H6 & ->).
      pose proof (processBatch_silent ask
        (batch ++ [{| index := rowIndex; data := row |}]) structuredDefs tenantId jobId)
        as [Hquiet _].
      rewrite H5 in Hquiet. simpl in Hquiet.
      pose proof H6 as H6'. apply readRows_normal in H6' as (Hidx & _).
      apply IH in H6 as [Hs Hl]; [|by rewrite Hm].
      split; [|done].
      autorewrite with logs. unfold statuses at 1 2 3. rewrite Hquiet. simpl.
      rewrite Hs, Hq.
      assert (S (rowIndex / batchSize) <= rowIndex' / batchSize) as Hle.
      { rewrite <- Hq. apply Nat.Div0.div_le_mono. lia. }
      replace (rowIndex' / batchSize - rowIndex / batchSize)
        with (S (rowIndex' / batchSize - S (rowIndex / batchSize))) by lia.
      reflexivity.
    + apply Nat.leb_gt in Hfull.
      destruct Hstay as [Hq Hm]; [lia|].
      apply IH in H2 as [Hs Hl]; [|rewrite Hm, length_app, Hlen; cbn [length]; lia].
      split; [|done].
      autorewrite with logs. simpl. by rewrite Hs, Hq.
Qed.

End LoopLemmas.

(** ** The job *)

Section JobLemmas.

Variable NumberToString : float -> string.
Variable StringToNumber : string -> float.

Local Abbreviation processBatch := (processBatch NumberToString StringToNumber).
Local Abbreviation readRows := (readRows NumberToString StringToNumber).
Local Abbreviation main_sized := (main_sized NumberToString StringToNumber).
Local Abbreviation job_sized := (job_sized NumberToString StringToNumber).

(** A property of every event of the loop follows from the same property
    of every batch, when row reads and progress statuses have it. *)
Lemma readRows_always (Q : Event -> Prop) batchSize ask structuredDefs tenantId jobId :
  (forall i, Q (RowRead i)) ->
  (forall n, Q (JobWritten tenantId jobId (JobUpdate (processing_batch n) None None))) ->
  (forall batch, always Q (processBatch ask batch structuredDefs tenantId jobId)) ->
  forall stream batch rowIndex,
    always Q (readRows batchSize ask structuredDefs tenantId jobId stream batch rowIndex).
Proof.
  intros Hread Hprogress Hbatch. induction stream as [|row rest IH]; intros batch rowIndex.
  - apply always_ret.
  - rewrite readRows_cons. apply always_bind; [by apply always_emit|]. intros _.
    destruct (_ <=? _); [|apply IH].
    apply always_bind; [by apply always_emit|]. intros _.
    apply always_bind; [apply Hbatch|]. intros _. apply IH.
Qed.

(** The same for the whole job, when the events of [main] and of its
    failure handler have the property. *)
Section Everywhere.

Variable Q : Event -> Prop.
Hypothesis Q_read : forall i, Q (RowRead i).
Hypothesis Q_job : forall tenantId jobId w, Q (JobWritten tenantId jobId w).
Hypothesis Q_close : Q WriterClosed.

Lemma main_always batchSize inv :
  (forall structuredDefs batch tenantId jobId,
      definitionsDoc inv = Some structuredDefs ->
      always Q (processBatch (oracle inv) batch structuredDefs tenantId jobId)) ->
  always Q (main_sized batchSize inv).
Proof.
  intros Hbatch. unfold main_sized. cbv zeta.
  destruct (_ || _); [apply always_raise|].
  destruct (_ || _); [apply always_raise|].
  apply always_bind; [by apply always_emit|]. intros _.
  apply always_bind_normal; [apply always_silent|]. intros structuredDefs Hdefs.
  assert (definitionsDoc inv = Some structuredDefs) as Hdoc.
  { simpl in Hdefs. destruct (definitionsDoc inv); [|discriminate].
    by injection Hdefs as ->. }
  apply always_bind; [apply readRows_always; auto|]. intros [batch rowIndex].
  apply always_bind; [destruct (readError inv); [apply always_raise | apply always_ret]|].
  intros _.
  apply always_bind; [destruct (0 <? _); [auto | apply always_ret]|]. intros _.
  apply always_bind; [by apply always_emit | intros _; by apply always_emit].
Qed.

Lemma job_always batchSize inv :
  (forall structuredDefs batch tenantId jobId,
      definitionsDoc inv = Some structuredDefs ->
      always Q (processBatch (oracle inv) batch structuredDefs tenantId jobId)) ->
  always Q (job_sized batchSize inv).
Proof.
  intros Hbatch. pose proof (main_always batchSize inv Hbatch) as Hmain.
  unfold always, job_sized in *.
  destruct (main_sized batchSize inv) as [log [[]|err]]; simpl in *; [done|].
  apply Forall_app. split; [done|].
  unfold onFailure. destruct (given _); [|constructor].
  destruct (4 <=? _); repeat constructor. apply Q_job.
Qed.

End Everywhere.

(** Every row document of a job is a document of one of its batches. *)
Lemma job_everyRowSet (P : nat -> Document -> Prop) batchSize inv :
  (forall structuredDefs batch tenantId jobId,
      definitionsDoc inv = Some structuredDefs ->
      everyRowSet P (processBatch (oracle inv) batch structuredDefs tenantId jobId).1) ->
  everyRowSet P (job_sized batchSize inv).1.
Proof. intros H. by apply job_always. Qed.

Lemma job_normal batchSize inv log :
  job_sized batchSize inv = (log, Normal tt) -> main_sized batchSize inv = (log, Normal tt).
Proof.
  unfold job_sized. destruct (main_sized batchSize inv) as [l [[]|err]]; congruence.
Qed.

(** A run of [main] that returns: what it read, wrote and started. *)
Lemma main_normal batchSize inv log :
  main_sized batchSize inv = (log, Normal tt) ->
  rowsRead log = seq 0 (length (rows inv)) /\
  map fst (rowWrites log) = seq 0 (length (rows inv)) /\
  batches log = batcher batchSize (numbered 0 (rows inv)) [] /\
  (exists init tenantId jobId,
      log = init ++ [JobWritten tenantId jobId
                       (JobUpdate completed (Some (length (rows inv))) None)]) /\
  (0 < batchSize ->
   statuses log
   = reading :: map processing_batch (seq 1 (length (rows inv) / batchSize)) ++ [completed]).
Proof.
  unfold main_sized. cbv zeta. intros H.
  destruct (_ || _); [discriminate H|].
  destruct (_ || _); [discriminate H|].
  apply bind_normal in H as (l1 & [] & l2 & H1 & H2 & ->). injection H1 as <-.
  apply bind_normal in H2 as (l3 & structuredDefs & l4 & H3 & H4 & ->).
  injection H3 as <- _.
  apply bind_normal in H4 as (l5 & [batch rowIndex] & l6 & H5 & H6 & ->).
  cbn beta iota in H6.
  apply bind_normal in H6 as (l7 & [] & l8 & H7 & H8 & ->).
  destruct (readError inv); [discriminate H7|]. injection H7 as <-.
  apply bind_normal in H8 as (l9 & [] & l10 & H9 & H10 & ->).
  apply bind_normal in H10 as (l11 & [] & l12 & H11 & H12 & ->).
  injection H11 as <-. injection H12 as <-.
  pose proof H5 as H5'.
  apply readRows_normal in H5 as (-> & Hr & Hw & Hb).
  simpl in Hw, Hb. rewrite Nat.add_0_l in *.
  set (tenantId := part _ 1) in *. set (jobId := part _ 2) in *.
  set (K := length (rows inv)) in *.
  assert (rowsRead l9 = [] /\ jobWrites l9 = [] /\
          map fst (rowWrites l9) = map index batch /\
          batches l9 = if 0 <? length batch then [batch] else []) as (Hr9 & Hj9 & Hw9 & Hb9).
  { destruct (0 <? length batch) eqn:Hlen.
    - pose proof (processBatch_silent NumberToString StringToNumber (oracle inv) batch
                    structuredDefs tenantId jobId) as [Hj Hrd].
      rewrite H9 in Hj, Hrd.
      apply processBatch_normal in H9 as (_ & ? & ?). done.
    - injection H9 as <-. apply Nat.ltb_ge in Hlen.
      destruct batch; [done | simpl in Hlen; lia]. }
  repeat split.
  - autorewrite with logs. simpl. by rewrite Hr, Hr9, app_nil_r.
  - autorewrite with logs. simpl. by rewrite app_nil_r, (map_app fst), Hw9.
  - autorewrite with logs. simpl. by rewrite Hb9, app_nil_r.
  - exists ([JobWritten tenantId jobId
               (JobSet true jobId (part (split (default "" (args inv !! 1))) 3) reading)]
            ++ l5 ++ l9 ++ [WriterClosed]), tenantId, jobId.
    simpl. by rewrite <- !app_assoc.
  - intros HB.
    apply (readRows_statuses _ _ _ _ _ _ _ _ HB) in H5' as [Hs _];
      [|by rewrite Nat.Div0.mod_0_l].
    rewrite Nat.Div0.div_0_l, Nat.sub_0_r in Hs.
    autorewrite with logs. rewrite Hs. unfold statuses. rewrite Hj9. reflexivity.
Qed.

End JobLemmas.

(** ** The batches of a run that stops early *)

Lemma batches_job tenantId jobId w log :
  batches (JobWritten tenantId jobId w :: log) = batches log.
Proof. reflexivity. Qed.

Lemma batches_read i log : batches (RowRead i :: log) = batches log.
Proof. reflexivity. Qed.

Section Prefix.

Variable NumberToString : float -> string.
Variable StringToNumber : string -> float.

Local Abbreviation classifyRow := (classifyRow NumberToString StringToNumber).
Local Abbreviation processBatch := (processBatch NumberToString StringToNumber).
Local Abbreviation readRows := (readRows NumberToString StringToNumber).
Local Abbreviation main_sized := (main_sized NumberToString StringToNumber).
Local Abbreviation job_sized := (job_sized NumberToString StringToNumber).

Lemma for_of_rows_batches structuredDefs aiResponse tenantId jobId batch :
  batches (for_of batch (classifyRow structuredDefs aiResponse tenantId jobId)).1 = [].
Proof.
  induction batch as [|row rest IH]; [reflexivity|].
  cbn [for_of]. rewrite bind_log, batches_app.
  pose proof (classifyRow_spec NumberToString StringToNumber structuredDefs
                aiResponse tenantId jobId row) as Hrow.
  destruct (classifyRow _ _ _ _ row) as [log [[]|e]]; cbn [fst snd].
  - destruct Hrow as (doc & -> & _). exact IH.
  - by subst.
Qed.

(** A batch that starts is logged once, whether or not it returns. *)
Lemma processBatch_batches ask batch structuredDefs tenantId jobId :
  batch <> [] ->
  batches (processBatch ask batch structuredDefs tenantId jobId).1 = [batch].
Proof.
  intros Hne. unfold processBatch. destruct batch as [|row rest]; [done|].
  rewrite bind_emit. cbn [fst].
  change (batches (BatchStarted (row :: rest) :: ?l)) with ((row :: rest) :: batches l).
  f_equal. apply for_of_rows_batches.
Qed.

Lemma readRows_prefix batchSize ask structuredDefs tenantId jobId stream :
  forall batch rowIndex,
    batches (readRows batchSize ask structuredDefs tenantId jobId stream batch rowIndex).1
    `prefix_of` batcher batchSize (numbered rowIndex stream) batch.
Proof.
  induction stream as [|row rest IH]; intros batch rowIndex.
  - apply prefix_nil.
  - rewrite readRows_cons, bind_emit. cbn [fst numbered batcher]. rewrite batches_read.
    destruct (batchSize <=? _); [|apply IH].
    rewrite bind_emit. cbn [fst]. rewrite batches_job, bind_log, batches_app.
    rewrite processBatch_batches by (by destruct batch).
    apply prefix_cons.
    destruct (processBatch _ _ _ _ _).2; [apply IH | apply prefix_nil].
Qed.

(** In every run of the job, the batches handed to [processBatch] are, in
    order, an initial segment of the batcher's; in a run that returns
    they are all of them. *)
Lemma job_batches_prefix batchSize inv :
  batches (job_sized batchSize inv).1
  `prefix_of` batcher batchSize (numbered 0 (rows inv)) [].
Proof.
  assert (batches (main_sized batchSize inv).1
          `prefix_of` batcher batchSize (numbered 0 (rows inv)) []) as Hmain.
  { unfold main_sized. cbv zeta.
    destruct (_ || _); [apply prefix_nil|].
    destruct (_ || _); [apply prefix_nil|].
    rewrite bind_emit. cbn [fst]. rewrite batches_job.
    destruct (definitionsDoc inv) as [structuredDefs|]; [|apply prefix_nil].
    cbn [getStructuredDefinitions]. rewrite bind_lift, bind_log, batches_app.
    set (tenantId := part _ 1). set (jobId := part _ 2).
    pose proof (readRows_prefix batchSize (oracle inv) structuredDefs tenantId jobId
                  (rows inv) [] 0) as Hprefix.
    destruct (readRows batchSize (oracle inv) structuredDefs tenantId jobId (rows inv) [] 0)
      as [log [[batch rowIndex]|e]] eqn:Hloop; cbn [fst snd] in *.
    - apply readRows_normal in Hloop as (_ & _ & _ & <-).
      destruct (readError inv); [by apply prefix_app, prefix_nil|].
      rewrite bind_ret, bind_log, batches_app. apply prefix_app.
      destruct (0 <? length batch) eqn:Hlen.
      + rewrite processBatch_batches by (by destruct batch).
        destruct (processBatch _ _ _ _ _).2; by rewrite app_nil_r.
      + apply prefix_nil.
    - by rewrite app_nil_r. }
  unfold job_sized. destruct (main_sized batchSize inv) as [log [[]|err]]; [done|].
  cbn [fst] in *. rewrite batches_app.
  assert (batches (onFailure inv err) = []) as ->; [|by rewrite app_nil_r].
  unfold onFailure. destruct (given _); [|done]. by destruct (4 <=? _).
Qed.

End Prefix.

(** ** Reaching [completed] *)

(** An event that does not set the status [completed]. *)
Definition notCompleted (e : Event) : Prop :=
  match e with
  | JobWritten _ _ w => written_status w <> completed
  | _ => True
  end.

Lemma notCompleted_statuses log : Forall notCompleted log -> ~ In completed (statuses log).
Proof.
  induction 1 as [|e log He _ IH]; [intros []|].
  destruct e; try exact IH. intros [Heq|Hin]; [|by apply IH].
  simpl in He. congruence.
Qed.

Lemma quiet_notCompleted log : Forall quiet log -> Forall notCompleted log.
Proof. intros H. eapply Forall_impl; [exact H|]. intros []; simpl; tauto. Qed.

(** What a run that throws has logged. *)
Definition thrown (Q : Event -> Prop) {A} (r : Run A) : Prop :=
  match r.2 with
  | Throw _ => Forall Q r.1
  | Normal _ => True
  end.

Lemma thrown_bind (Q : Event -> Prop) {A B} (m : Run A) (f : A -> Run B) :
  always Q m -> (forall a, thrown Q (f a)) -> thrown Q (m ≫= f).
Proof.
  unfold thrown, always. intros Hm Hf. rewrite bind_log, bind_outcome.
  destruct m.2 as [a|e].
  - specialize (Hf a). destruct (f a).2; [exact I|]. apply Forall_app. by split.
  - apply Forall_app. split; [done | constructor].
Qed.

Section Completion.

Variable NumberToString : float -> string.
Variable StringToNumber : string -> float.

Local Abbreviation main_sized := (main_sized NumberToString StringToNumber).
Local Abbreviation job_sized := (job_sized NumberToString StringToNumber).

(** [main] sets [completed] in its last statement only. *)
Lemma main_thrown batchSize inv : thrown notCompleted (main_sized batchSize inv).
Proof.
  unfold main_sized. cbv zeta.
  destruct (_ || _); [constructor|].
  destruct (_ || _); [constructor|].
  apply thrown_bind; [by apply always_emit|]. intros _.
  apply thrown_bind; [apply always_silent|]. intros structuredDefs.
  apply thrown_bind.
  { apply readRows_always; try done.
    intros batch. apply quiet_notCompleted, processBatch_quiet. }
  intros [batch rowIndex].
  apply thrown_bind; [destruct (readError inv); [apply always_raise | apply always_ret]|].
  intros _.
  apply thrown_bind.
  { destruct (0 <? _); [|apply always_ret]. apply quiet_notCompleted, processBatch_quiet. }
  intros _.
  apply thrown_bind; [by apply always_emit|]. intros _. exact I.
Qed.

(** The job has reached [completed] exactly when [main] returned. *)
Lemma job_completed batchSize inv :
  In completed (statuses (job_sized batchSize inv).1) ->
  (job_sized batchSize inv).2 = Normal tt.
Proof.
  pose proof (main_thrown batchSize inv) as Hmain. unfold thrown, job_sized in *.
  destruct (main_sized batchSize inv) as [log [[]|err]]; [reflexivity|].
  cbn [fst snd] in *. rewrite statuses_app. intros Hin. exfalso.
  apply in_app_or in Hin as [Hin|Hin].
  - by apply (notCompleted_statuses log).
  - unfold onFailure in Hin. destruct (given _); [|destruct Hin].
    destruct (4 <=? _); [|destruct Hin]. destruct Hin as [Heq|[]]. discriminate Heq.
Qed.

End Completion.

(** ** Sample inputs *)

(** Conversions to run the programs with; the theorems hold for all. *)
Definition constantText (x : float) : string := "NaN".
Definition constantNumber (s : string) : float := nan.

Definition sampleTaxonomy : Taxonomy :=
  {[ "IT" := {| definition := "Information technology";
                sub_pools := [ {| name := "Cloud"; sub_definition := "Hosted services" |} ] |} ]}.

Definition sampleRows (n : nat) : list RowData :=
  replicate n [("description", "hosting invoice")].

(** An oracle that answers every row of a batch with the same entry. *)
Definition answering (entry : jsval) (batch : list SourceRow) : OracleOutcome :=
  ReplyParsed (JObj (map (fun row => (transactionKey (index row), entry)) batch)).

Definition cloudEntry : jsval :=
  JObj [ ("cost_pool", JStr "IT"); ("cost_sub_pool", JStr "Cloud");
         ("confidence", JNum 0.5%float); ("reasoning", JStr "hosting") ].

Definition sampleInvocation (filePath : string) (n : nat)
    (ask : list SourceRow -> OracleOutcome) : Invocation :=
  {| args := ["clarity-uploads"; filePath];
     definitionsDoc := Some sampleTaxonomy;
     rows := sampleRows n;
     readError := None;
     oracle := ask |}.

(** ** Claims *)

Lemma jobDocAfter_last d init tenantId jobId s n :
  jobDocAfter d (init ++ [JobWritten tenantId jobId (JobUpdate s (Some n) None)])
  = {| doc_status := Some s; doc_totalRows := Some n;
       doc_error := doc_error (jobDocAfter d init) |}.
Proof. unfold jobDocAfter. rewrite jobWrites_app, foldl_app. reflexivity. Qed.

(** C2 (row conservation).  A job that reaches [completed] has read the
    rows 0..K-1 of the source, has set exactly one row document for each
    index 0..K-1 (in that order, so without gap or duplicate), each
    carrying its index in [row_index], and leaves the job document with
    status [completed] and [totalRows] K. *)
Theorem C2_row_conservation NumberToString StringToNumber inv :
  In completed (statuses (job NumberToString StringToNumber inv).1) ->
  rowsRead (job NumberToString StringToNumber inv).1 = seq 0 (length (rows inv)) /\
  map fst (rowWrites (job NumberToString StringToNumber inv).1) = seq 0 (length (rows inv)) /\
  length (rowWrites (job NumberToString StringToNumber inv).1) = length (rows inv) /\
  everyRowSet (fun i doc => field doc "row_index" = Some (DIndex i))
    (job NumberToString StringToNumber inv).1 /\
  forall before,
    doc_status (jobDocAfter before (job NumberToString StringToNumber inv).1) = Some completed /\
    doc_totalRows (jobDocAfter before (job NumberToString StringToNumber inv).1)
    = Some (length (rows inv)).
Proof.
  unfold job. intros Hdone. apply job_completed in Hdone.
  assert (everyRowSet (fun i doc => field doc "row_index" = Some (DIndex i))
            (job_sized NumberToString StringToNumber BATCH_SIZE inv).1) as Hidx.
  { apply job_everyRowSet. intros structuredDefs batch tenantId jobId _.
    eapply Forall_impl; [apply processBatch_documents|].
    intros [] H; try done. destruct H as (row & _ & <- & result & c & _ & _ & Hdoc).
    apply rowDocument_normal in Hdoc as (x & _ & ->). reflexivity. }
  destruct (job_sized _ _ BATCH_SIZE inv) as [log [[]|err]] eqn:Hjob; [|discriminate].
  apply job_normal, main_normal in Hjob as (Hr & Hw & _ & (init & t & j & Hlast) & _).
  simpl. repeat split; try done.
  - rewrite <- (length_map fst), Hw. apply length_seq.
  - subst log. by rewrite jobDocAfter_last.
  - subst log. by rewrite jobDocAfter_last.
Qed.

Lemma C2_row_conservation_witness :
  In completed (statuses (job constantText constantNumber
     (sampleInvocation "uploads/acme/job42/data.csv" 120 (answering cloudEntry))).1) /\
  map fst (rowWrites (job constantText constantNumber
     (sampleInvocation "uploads/acme/job42/data.csv" 120 (answering cloudEntry))).1) = seq 0 120.
Proof.
  assert (In completed (statuses (job constantText constantNumber
            (sampleInvocation "uploads/acme/job42/data.csv" 120 (answering cloudEntry))).1))
    as Hdone.
  { match goal with |- In _ ?l => remember l as seen eqn:E end.
    vm_compute in E. subst seen. simpl. tauto. }
  split; [exact Hdone|].
  etransitivity.
  - exact (proj1 (proj2 (C2_row_conservation constantText constantNumber
             (sampleInvocation "uploads/acme/job42/data.csv" 120 (answering cloudEntry))
             Hdone))).
  - vm_compute. reflexivity.
Defined.

(** C5 (batch partition).  With a positive batch size B and a stream of
    K rows, the partition of the batcher has ceil(K/B) batches: B rows
    each, followed by one of K mod B rows when that is not zero and by
    nothing otherwise; end to end they are the rows of the stream in
    order.  The calls of [processBatch] a job makes are, in order, an
    initial segment of that partition, and the whole of it once [main]
    returns. *)
Theorem C5_batch_partition NumberToString StringToNumber batchSize inv :
  0 < batchSize ->
  length (batcher batchSize (numbered 0 (rows inv)) [])
  = (length (rows inv) + batchSize - 1) / batchSize /\
  map length (batcher batchSize (numbered 0 (rows inv)) [])
  = replicate (length (rows inv) / batchSize) batchSize
    ++ (if length (rows inv) mod batchSize =? 0 then []
        else [length (rows inv) mod batchSize]) /\
  concat (batcher batchSize (numbered 0 (rows inv)) []) = numbered 0 (rows inv) /\
  batches (job_sized NumberToString StringToNumber batchSize inv).1
  `prefix_of` batcher batchSize (numbered 0 (rows inv)) [] /\
  ((job_sized NumberToString StringToNumber batchSize inv).2 = Normal tt ->
   batches (job_sized NumberToString StringToNumber batchSize inv).1
   = batcher batchSize (numbered 0 (rows inv)) []).
Proof.
  intros HB.
  pose proof (batcher_lengths batchSize (numbered 0 (rows inv)) [] HB HB) as Hlen.
  cbv zeta in Hlen. cbn [length] in Hlen.
  rewrite Nat.add_0_l, length_numbered in Hlen.
  split; [|split; [|split; [|split]]].
  - rewrite <- (length_map length), Hlen. by apply ceiling_count.
  - exact Hlen.
  - apply batcher_concat.
  - apply job_batches_prefix.
  - intros Hdone.
    destruct (job_sized _ _ batchSize inv) as [log [[]|err]] eqn:Hjob; [|discriminate].
    by apply job_normal, main_normal in Hjob as (_ & _ & Hb & _ & _).
Qed.

Lemma C5_batch_partition_witness :
  0 < BATCH_SIZE /\
  map length (batches (job_sized constantText constantNumber BATCH_SIZE
     (sampleInvocation "uploads/acme/job42/data.csv" 120 (answering cloudEntry))).1)
  = [50; 50; 20].
Proof.
  assert (0 < BATCH_SIZE) as HB by (unfold BATCH_SIZE; lia).
  split; [exact HB|].
  destruct (C5_batch_partition constantText constantNumber BATCH_SIZE
              (sampleInvocation "uploads/acme/job42/data.csv" 120 (answering cloudEntry)) HB)
    as (_ & Hsizes & _ & _ & Hall).
  rewrite Hall by (vm_compute; reflexivity).
  etransitivity; [exact Hsizes | vm_compute; reflexivity].
Defined.

(** C6 (status sequence).  With a positive batch size B, a job that runs
    to completion over K rows writes the statuses [reading], then
    [processing_batch_1] up to [processing_batch_N] for the N = floor(K/B)
    full batches, then [completed]: the final partial batch is processed
    without a status of its own. *)
Theorem C6_status_sequence NumberToString StringToNumber batchSize inv :
  0 < batchSize ->
  (job_sized NumberToString StringToNumber batchSize inv).2 = Normal tt ->
  statuses (job_sized NumberToString StringToNumber batchSize inv).1
  = reading :: map processing_batch (seq 1 (length (rows inv) / batchSize)) ++ [completed].
Proof.
  intros HB Hdone.
  destruct (job_sized _ _ batchSize inv) as [log [[]|err]] eqn:Hjob; [|discriminate].
  apply job_normal, main_normal in Hjob as (_ & _ & _ & _ & Hs). by apply Hs.
Qed.

Lemma C6_status_sequence_witness :
  0 < BATCH_SIZE /\
  (job_sized constantText constantNumber BATCH_SIZE
     (sampleInvocation "uploads/acme/job42/data.csv" 120 (answering cloudEntry))).2 = Normal tt /\
  statuses (job_sized constantText constantNumber BATCH_SIZE
     (sampleInvocation "uploads/acme/job42/data.csv" 120 (answering cloudEntry))).1
  = [reading; processing_batch 1; processing_batch 2; completed].
Proof.
  assert (0 < BATCH_SIZE) as HB by (unfold BATCH_SIZE; lia).
  assert ((job_sized constantText constantNumber BATCH_SIZE
            (sampleInvocation "uploads/acme/job42/data.csv" 120 (answering cloudEntry))).2
          = Normal tt) as Hdone by (vm_compute; reflexivity).
  split; [exact HB|]. split; [exact Hdone|].
  etransitivity.
  - exact (C6_status_sequence constantText constantNumber BATCH_SIZE
             (sampleInvocation "uploads/acme/job42/data.csv" 120 (answering cloudEntry))
             HB Hdone).
  - vm_compute. reflexivity.
Defined.

Lemma integrity_of_document NumberToString StringToNumber structuredDefs aiResponse row doc :
  DocumentOf NumberToString StringToNumber structuredDefs aiResponse row doc ->
  integrity NumberToString structuredDefs doc.
Proof.
  intros (result & c & _ & Hc & Hdoc).
  apply rowDocument_normal in Hdoc as (x & _ & ->).
  assert (c = fallback "AI response was missing, invalid, or could not be parsed." \/
          exists pool key poolData sub conf why,
            Get result "cost_pool" = Normal pool /\
            ToString NumberToString pool = Normal key /\
            structuredDefs !! key = Some poolData /\
            existsb (fun sp => named sp sub) (sub_pools poolData) = true /\
            Get result "confidence" = Normal conf /\
            c = {| cost_pool := pool; cost_sub_pool := sub;
                   confidence := or_else conf (JNum 0%float);
                   reasoning := or_else why (JStr "No reasoning provided.") |}) as Hcases.
  { destruct (truthy result); [by apply validate_normal in Hc | left; congruence]. }
  destruct Hcases as [->|(pool & key & poolData & sub & conf & why & _ & Hkey & Hown & Hsub & _ & ->)].
  - exists (JStr Unclassified), Unclassified. repeat split; auto.
  - apply some_named in Hsub as (s & -> & Hin).
    exists pool, s. repeat split; auto. right. by exists key, poolData.
Qed.


(** A taxonomy with a pool named like the sentinel. *)
Definition sentinelTaxonomy : Taxonomy :=
  {[ "Unclassified" :=
       {| definition := "Not yet sorted";
          sub_pools := [ {| name := "Other"; sub_definition := "Anything else" |} ] |} ]}.

Definition sentinelInvocation : Invocation :=
  {| args := ["clarity-uploads"; "uploads/acme/job42/data.csv"];
     definitionsDoc := Some sentinelTaxonomy;
     rows := sampleRows 1;
     readError := None;
     oracle := answering (JObj [ ("cost_pool", JStr "Unclassified");
                                 ("cost_sub_pool", JStr "Other") ]) |}.


(** C9 (row document shape), as the code has it.  Every row document the
    job sets has exactly the fields [original_data], [cost_pool],
    [cost_sub_pool], [confidence], [reasoning] and [row_index]; it has no
    [manually_edited] field. *)
Theorem C9_document_shape NumberToString StringToNumber inv :
  everyRowSet
    (fun _ doc => map fst doc = writtenFields /\ field doc "manually_edited" = None)
    (job NumberToString StringToNumber inv).1.
Proof.
  unfold job. apply job_everyRowSet. intros structuredDefs batch tenantId jobId _.
  eapply Forall_impl; [apply processBatch_documents|].
  intros [] H; try exact I. destruct H as (row & _ & _ & result & c & _ & _ & Hdoc).
  apply rowDocument_normal in Hdoc as (x & _ & ->). by split.
Qed.

(** C9 as the specification states it fails: the document of a classified
    row has no [manually_edited] field. *)
Lemma C9_counterexample :
  ~ (forall NumberToString StringToNumber inv,
        everyRowSet (fun _ doc => shape_as_specified doc)
          (job NumberToString StringToNumber inv).1).
Proof.
  intros H.
  specialize (H constantText constantNumber
                (sampleInvocation "uploads/acme/job42/data.csv" 1 (answering cloudEntry))).
  apply everyRowSet_rowWrites in H.
  remember (rowWrites (job constantText constantNumber
              (sampleInvocation "uploads/acme/job42/data.csv" 1 (answering cloudEntry))).1)
    as ws eqn:E.
  vm_compute in E. subst ws.
  apply Forall_cons in H as [[_ Hedited] _]. discriminate Hedited.
Qed.

Lemma unit_interval_zero : unit_interval 0%float.
Proof. split; reflexivity. Qed.



Lemma given_Some s : s <> "" -> given (Some s) = true.
Proof.
  intros Hs. simpl. apply negb_true_iff. by apply String.eqb_neq.
Qed.



(** A path is rejected when every invocation on it ends in the
    invalid-path error. *)
Definition rejected (filePath : string) : Prop :=
  forall NumberToString StringToNumber inv,
    args inv !! 1 = Some filePath ->
    (job NumberToString StringToNumber inv).2 = Throw (InvalidFilePath filePath).


(** An oracle whose reply to the batch that starts at row 50 is the JSON
    text [null], and that answers every other batch. *)
Definition nullForSecondBatch (batch : list SourceRow) : OracleOutcome :=
  match batch with
  | row :: _ => if index row =? 50 then ReplyParsed JNull else answering cloudEntry batch
  | [] => ReplyUnparseable
  end.

(** C3 (oracle-failure isolation) at a reply that is JSON but not an
    object.  Of 120 rows in three batches, the reply [null] to the second
    batch makes [processBatch] throw: the 50 rows of the first batch are
    the only ones written, the third batch is never started, and the job
    ends [failed], not [completed]. *)
Theorem C3_null_reply_aborts_job NumberToString StringToNumber :
  let run := job NumberToString StringToNumber
               (sampleInvocation "uploads/acme/job42/data.csv" 120 nullForSecondBatch) in
  run.2 = Throw TypeError /\
  map fst (rowWrites run.1) = seq 0 50 /\
  length (batches run.1) = 2 /\
  statuses run.1 = [reading; processing_batch 1; processing_batch 2; failed].
Proof. vm_compute. repeat split; reflexivity. Qed.

(** C4 (validation recovery) at an inherited property name.  With the
    oracle naming the cost pool [constructor], the taxonomy check throws
    instead of falling back: no document is written for the row and the
    job ends [failed]. *)
Theorem C4_inherited_name_aborts_job NumberToString StringToNumber :
  let run := job NumberToString StringToNumber
               (sampleInvocation "uploads/acme/job42/data.csv" 1
                  (answering (JObj [ ("cost_pool", JStr "constructor");
                                     ("cost_sub_pool", JStr "Cloud") ]))) in
  run.2 = Throw TypeError /\
  rowWrites run.1 = [] /\
  statuses run.1 = [reading; failed].
Proof. vm_compute. repeat split; reflexivity. Qed.

(** ** The per-row function and its errors *)

Definition written_error (w : JobWrite) : option JsError :=
  match w with
  | JobSet _ _ _ _ => None
  | JobUpdate _ _ err => err
  end.

(** An event other than a write to the job document. *)
Definition notJobWrite (e : Event) : Prop :=
  match e with
  | JobWritten _ _ _ => False
  | _ => True
  end.

Lemma notJobWrite_log log : Forall notJobWrite log -> jobWrites log = [].
Proof.
  induction 1 as [|e log He _ IH]; [done|].
  destruct e; simpl in He; try contradiction; exact IH.
Qed.

Lemma for_of_reads start n :
  for_of (seq start n) (fun i => emit (RowRead i)) = (map RowRead (seq start n), Normal tt).
Proof.
  revert start. induction n as [|n IH]; intros start; [reflexivity|].
  cbn [seq for_of map]. by rewrite bind_emit, IH.
Qed.

Lemma jobWrites_job tenantId jobId w log :
  jobWrites (JobWritten tenantId jobId w :: log) = w :: jobWrites log.
Proof. reflexivity. Qed.

Lemma jobWrites_reads l : jobWrites (map RowRead l) = [].
Proof. induction l; [reflexivity | exact IHl]. Qed.

Lemma Promise_all_notJobWrite promises :
  Forall (fun r : Run unit => Forall notJobWrite r.1) promises ->
  Forall notJobWrite (Promise_all promises).1.
Proof.
  induction 1 as [|[log outcome] rest Hr _ IH]; [constructor|].
  simpl. destruct (Promise_all rest) as [log' outcome']. simpl in *.
  apply Forall_app. by split.
Qed.

Section PerRowLemmas.

Variable NumberToString : float -> string.
Variable StringToNumber : string -> float.

Local Abbreviation classifyRecord := (classifyRecord NumberToString StringToNumber).
Local Abbreviation processCSV_try := (processCSV_try NumberToString StringToNumber).
Local Abbreviation processCSV := (processCSV NumberToString StringToNumber).

Lemma classifyRecord_notJobWrite structuredDefs tenantId jobId d rowIndex row :
  Forall notJobWrite (classifyRecord structuredDefs tenantId jobId d rowIndex row).1.
Proof.
  unfold classifyRecord.
  destruct (answer d rowIndex); [constructor| |];
    (apply always_bind; [apply always_silent|]; intros doc;
     destruct (rowWriteRejected d rowIndex); [apply always_raise | by apply always_emit]).
Qed.

Lemma callbacks_notJobWrite structuredDefs tenantId jobId d rows :
  Forall notJobWrite
    (Promise_all (imap (classifyRecord structuredDefs tenantId jobId d) rows)).1.
Proof.
  apply Promise_all_notJobWrite. apply Forall_forall. intros r Hr.
  apply elem_of_lookup_imap in Hr as (i & row & -> & _).
  apply classifyRecord_notJobWrite.
Qed.

(** The job writes of a delivery whose [try] block throws. *)
Lemma processCSV_try_throws d e :
  (processCSV_try d).2 = Throw e ->
  jobWrites (processCSV_try d).1 = [] \/
  exists id originalFilename,
    jobWrites (processCSV_try d).1 = [JobSet false id originalFilename reading] \/
    jobWrites (processCSV_try d).1
    = [JobSet false id originalFilename reading;
       JobUpdate processing (Some (length (records d))) None].
Proof.
  unfold processCSV_try.
  destruct (taxonomyDoc d) as [structuredDefs|]; cbn [getStructuredDefinitions];
    [rewrite bind_lift | intros _; by left].
  destruct (size structuredDefs =? 0); [discriminate|].
  destruct (eventData d) as [fileData|]; [|discriminate].
  destruct (_ || _); [discriminate|].
  destruct (_ || _); [discriminate|].
  set (tenantId := part _ 1). set (jobId := part _ 2). set (originalFilename := part _ 3).
  rewrite bind_emit. cbn [fst snd]. rewrite bind_log, bind_outcome, for_of_reads.
  cbn [fst snd]. intros Hthrow. right. exists jobId, originalFilename.
  rewrite bind_log, bind_outcome in *.
  pose proof (jobWrites_reads (seq 0 (length (records d)))) as Hreads.
  destruct (streamError d) as [message|]; cbn [fst snd raise] in *.
  - left. by rewrite jobWrites_job, !jobWrites_app, Hreads.
  - right. rewrite bind_emit in *. cbn [fst snd] in *.
    rewrite bind_log, bind_outcome in *.
    pose proof (callbacks_notJobWrite structuredDefs tenantId jobId d (records d)) as Hcb.
    apply notJobWrite_log in Hcb.
    destruct (Promise_all _) as [log [[]|err]]; cbn [fst snd emit] in *; [discriminate|].
    rewrite jobWrites_job, !jobWrites_app, Hreads.
    cbn [app mret Run_ret fst snd].
    by rewrite jobWrites_job, !jobWrites_app, Hcb.
Qed.

End PerRowLemmas.


(** A delivery of two records whose second oracle call rejects. *)
Definition rejectingDelivery : Delivery :=
  {| eventData := Some {| fileName := Some "uploads/acme/job42/data.csv";
                          bucket := Some "clarity-uploads" |};
     taxonomyDoc := Some sampleTaxonomy;
     records := sampleRows 2;
     streamError := None;
     answer := fun i => if i =? 1 then GenerateRejected else ReplyParsed cloudEntry;
     rowWriteRejected := fun _ => false |}.


(** ** Where the fallback does take over *)

(** The document of a row that falls back. *)
Definition fallbackDocument (row : SourceRow) : Document :=
  [ ("original_data", DRow (data row));
    ("cost_pool", DJs (JStr Unclassified));
    ("cost_sub_pool", DJs (JStr Unclassified));
    ("confidence", DJs (JNum 0%float));
    ("reasoning", DJs (JStr "AI response was missing, invalid, or could not be parsed."));
    ("row_index", DIndex (index row)) ].

Lemma for_of_singletons {A} (xs : list A) (body : A -> Run unit) (ev : A -> Event) :
  (forall x, body x = ([ev x], Normal tt)) ->
  for_of xs body = (map ev xs, Normal tt).
Proof.
  intros Hbody. induction xs as [|x rest IH]; [reflexivity|].
  cbn [for_of map]. rewrite Hbody, IH. reflexivity.
Qed.

(** An oracle outcome that leaves [processBatch] without a JSON object:
    the call rejected, the reply did not parse, or it parsed to a
    boolean, a number, a string or an array.  The reply [null] is the one
    non-object left out. *)
Definition withoutEntries (outcome : OracleOutcome) : Prop :=
  match outcome with
  | GenerateRejected | ReplyUnparseable => True
  | ReplyParsed (JBool _ | JNum _ | JStr _ | JArr _) => True
  | ReplyParsed (JUndefined | JNull | JObj _) => False
  end.



(** The answer of an oracle matters to its own batch only. *)
Lemma processBatch_local NumberToString StringToNumber ask ask' batch structuredDefs
    tenantId jobId :
  ask batch = ask' batch ->
  processBatch NumberToString StringToNumber ask batch structuredDefs tenantId jobId
  = processBatch NumberToString StringToNumber ask' batch structuredDefs tenantId jobId.
Proof. intros H. unfold processBatch. by rewrite H. Qed.

(** An oracle that rejects the call for the batch starting at row 50. *)
Definition rejectingSecondBatch (batch : list SourceRow) : OracleOutcome :=
  match batch with
  | row :: _ => if index row =? 50 then GenerateRejected else answering cloudEntry batch
  | [] => ReplyUnparseable
  end.

(** Of 120 rows in three batches with the second oracle call rejected:
    the job completes, all 120 rows are written, rows 50..99 as
    "Unclassified" and the others as the oracle classified them. *)
Example rejected_call_is_isolated :
  let run := job constantText constantNumber
               (sampleInvocation "uploads/acme/job42/data.csv" 120 rejectingSecondBatch) in
  run.2 = Normal tt /\
  map (fun w => (w.1, field w.2 "cost_pool")) (rowWrites run.1)
  = map (fun i => (i, Some (DJs (JStr (if (50 <=? i) && (i <? 100)
                                       then "Unclassified" else "IT")))))
      (seq 0 120).
Proof. vm_compute. split; reflexivity. Qed.



(** ** The same replies in the per-row function *)

(** The per-row function runs the taxonomy check inside its [try]: an
    inherited property name and the reply [null] both end in the
    fallback classification there, and the row is written. *)
Example per_row_recovers_inherited_name :
  classifyRecord constantText constantNumber sampleTaxonomy "acme" "job42"
    {| eventData := None; taxonomyDoc := Some sampleTaxonomy; records := sampleRows 1;
       streamError := None;
       answer := fun _ => ReplyParsed (JObj [ ("cost_pool", JStr "constructor");
                                              ("cost_sub_pool", JStr "Cloud") ]);
       rowWriteRejected := fun _ => false |}
    0 [("description", "hosting invoice")]
  = ([RowSet "acme" "job42" 0
        [ ("original_data", DRow [("description", "hosting invoice")]);
          ("cost_pool", DJs (JStr "Unclassified"));
          ("cost_sub_pool", DJs (JStr "Unclassified"));
          ("confidence", DJs (JNum 0%float));
          ("reasoning", DJs (JStr "AI response could not be parsed or validated."));
          ("row_index", DIndex 0) ]],
     Normal tt).
Proof. vm_compute. reflexivity. Qed.

Example per_row_recovers_null_reply :
  classifyRecord constantText constantNumber sampleTaxonomy "acme" "job42"
    {| eventData := None; taxonomyDoc := Some sampleTaxonomy; records := sampleRows 1;
       streamError := None;
       answer := fun _ => ReplyParsed JNull;
       rowWriteRejected := fun _ => false |}
    0 [("description", "hosting invoice")]
  = ([RowSet "acme" "job42" 0
        [ ("original_data", DRow [("description", "hosting invoice")]);
          ("cost_pool", DJs (JStr "Unclassified"));
          ("cost_sub_pool", DJs (JStr "Unclassified"));
          ("confidence", DJs (JNum 0%float));
          ("reasoning", DJs (JStr "AI response could not be parsed or validated."));
          ("row_index", DIndex 0) ]],
     Normal tt).
Proof. vm_compute. reflexivity. Qed.

(** ** How the job ends *)

Lemma jobDocAfter_failed d init tenantId jobId err :
  jobDocAfter d (init ++ [JobWritten tenantId jobId (JobUpdate failed None (Some err))])
  = {| doc_status := Some failed;
       doc_totalRows := doc_totalRows (jobDocAfter d init);
       doc_error := Some err |}.
Proof. unfold jobDocAfter. rewrite jobWrites_app, foldl_app. reflexivity. Qed.



(** A job reaches [completed] only when it was given a bucket and a path
    of at least four segments under [uploads], the taxonomy document
    exists, and the source stream ended without an error. *)
Theorem completed_requires NumberToString StringToNumber batchSize inv :
  In completed (statuses (job_sized NumberToString StringToNumber batchSize inv).1) ->
  given (args inv !! 0) = true /\
  (exists filePath,
      args inv !! 1 = Some filePath /\ filePath <> "" /\
      4 <= length (split filePath) /\ part (split filePath) 0 = "uploads") /\
  is_Some (definitionsDoc inv) /\
  readError inv = None.
Proof.
  intros Hdone. apply job_completed in Hdone.
  destruct (job_sized _ _ batchSize inv) as [log [[]|e]] eqn:Hjob; [|discriminate].
  apply job_normal in Hjob. revert Hjob. unfold main_sized. cbv zeta.
  destruct (given (args inv !! 0)) eqn:Hbucket; [|discriminate].
  destruct (given (args inv !! 1)) eqn:Hfile; [|discriminate].
  cbn [negb orb].
  destruct (args inv !! 1) as [filePath|]; [|discriminate].
  change (default "" (Some filePath)) with filePath.
  destruct (_ || _) eqn:Hpath; [discriminate|].
  apply orb_false_iff in Hpath as [Hlen Hfirst].
  apply Nat.ltb_ge in Hlen. apply negb_false_iff, String.eqb_eq in Hfirst.
  intros H.
  apply bind_normal in H as (l1 & [] & l2 & _ & H & _).
  apply bind_normal in H as (l3 & structuredDefs & l4 & Hdefs & H & _).
  apply bind_normal in H as (l5 & [batch rowIndex] & l6 & _ & H & _).
  cbn beta iota in H.
  apply bind_normal in H as (l7 & [] & l8 & Herr & _ & _).
  split; [reflexivity|]. split; [|split].
  - exists filePath. repeat split; try done.
    intros ->. discriminate Hfile.
  - destruct (definitionsDoc inv); [eauto | discriminate Hdefs].
  - destruct (readError inv); [discriminate Herr | reflexivity].
Qed.

Lemma completed_requires_witness :
  In completed (statuses (job_sized constantText constantNumber BATCH_SIZE
     (sampleInvocation "uploads/acme/job42/data.csv" 120 (answering cloudEntry))).1) /\
  readError (sampleInvocation "uploads/acme/job42/data.csv" 120 (answering cloudEntry)) = None.
Proof.
  assert (In completed (statuses (job_sized constantText constantNumber BATCH_SIZE
            (sampleInvocation "uploads/acme/job42/data.csv" 120 (answering cloudEntry))).1))
    as Hdone.
  { match goal with |- In _ ?l => remember l as seen eqn:E end.
    vm_compute in E. subst seen. simpl. tauto. }
  split; [exact Hdone|].
  exact (proj2 (proj2 (proj2 (completed_requires constantText constantNumber BATCH_SIZE
           (sampleInvocation "uploads/acme/job42/data.csv" 120 (answering cloudEntry))
           Hdone)))).
Defined.



(** ** The per-row function: what it writes *)

Lemma integrity_of_classification NumberToString StringToNumber structuredDefs
    original rowIndex why c doc :
  c = fallback why \/
  (exists result, validate NumberToString structuredDefs (fallback why) result = Normal c) ->
  rowDocument NumberToString StringToNumber original rowIndex c = Normal doc ->
  integrity NumberToString structuredDefs doc.
Proof.
  intros Hc Hdoc. apply rowDocument_normal in Hdoc as (x & _ & ->).
  assert (c = fallback why \/
          exists pool key poolData sub,
            ToString NumberToString pool = Normal key /\
            structuredDefs !! key = Some poolData /\
            existsb (fun sp => named sp sub) (sub_pools poolData) = true /\
            cost_pool c = pool /\ cost_sub_pool c = sub) as [->|Hok].
  { destruct Hc as [->|[result Hc]]; [by left|].
    apply validate_normal in Hc
      as [->|(pool & key & poolData & sub & conf & w & _ & Hkey & Hown & Hsub & _ & ->)];
      [by left|]. right. by exists pool, key, poolData, sub. }
  - exists (JStr Unclassified), Unclassified. repeat split; auto.
  - destruct Hok as (pool & key & poolData & sub & Hkey & Hown & Hsub & Hp & Hs).
    apply some_named in Hsub as (s & -> & Hin).
    exists pool, s. rewrite <- Hp. cbn [field String.eqb]. rewrite Hs.
    repeat split; auto. right. exists key, poolData. by rewrite Hp.
Qed.

Section PerRowWrites.

Variable NumberToString : float -> string.
Variable StringToNumber : string -> float.

Local Abbreviation classifyRecord := (classifyRecord NumberToString StringToNumber).
Local Abbreviation processCSV_try := (processCSV_try NumberToString StringToNumber).
Local Abbreviation processCSV := (processCSV NumberToString StringToNumber).

(** A callback that resolves has set the document of its record, and a
    callback that rejects has written nothing. *)
Lemma classifyRecord_outcome structuredDefs tenantId jobId d rowIndex row :
  match classifyRecord structuredDefs tenantId jobId d rowIndex row with
  | (log, Normal _) =>
      exists doc, log = [RowSet tenantId jobId rowIndex doc] /\
                  integrity NumberToString structuredDefs doc /\
                  field doc "row_index" = Some (DIndex rowIndex)
  | (log, Throw _) => log = []
  end.
Proof.
  unfold classifyRecord.
  set (otherwise := fallback "AI response could not be parsed or validated.").
  assert (forall c,
    c = otherwise \/
    (exists result, validate NumberToString structuredDefs otherwise result = Normal c) ->
    match (doc ← lift (rowDocument NumberToString StringToNumber row rowIndex c);
           if rowWriteRejected d rowIndex then raise WriteRejected
           else emit (RowSet tenantId jobId rowIndex doc)) with
    | (log, Normal _) =>
        exists doc, log = [RowSet tenantId jobId rowIndex doc] /\
                    integrity NumberToString structuredDefs doc /\
                    field doc "row_index" = Some (DIndex rowIndex)
    | (log, Throw _) => log = []
    end) as Hwrite.
  { intros c Hc.
    destruct (rowDocument NumberToString StringToNumber row rowIndex c) as [doc|e] eqn:Hdoc;
      [|reflexivity].
    rewrite bind_lift. destruct (rowWriteRejected d rowIndex); [reflexivity|].
    exists doc. split; [reflexivity|]. split.
    - by eapply integrity_of_classification.
    - apply rowDocument_normal in Hdoc as (x & _ & ->). reflexivity. }
  destruct (answer d rowIndex) as [| |suggestion]; [reflexivity| |].
  - apply Hwrite. by left.
  - apply Hwrite.
    destruct (validate NumberToString structuredDefs otherwise suggestion) as [c|e] eqn:Hv;
      [right; by exists suggestion | by left].
Qed.

Lemma callbacks_outcome structuredDefs tenantId jobId d (rows : list RowData) :
  forall start,
    let run := Promise_all
                 (imap (fun i => classifyRecord structuredDefs tenantId jobId d (start + i))
                    rows) in
    everyRowSet (fun i doc => integrity NumberToString structuredDefs doc /\
                              field doc "row_index" = Some (DIndex i)) run.1 /\
    jobWrites run.1 = [] /\ rowsRead run.1 = [] /\
    (run.2 = Normal tt -> map fst (rowWrites run.1) = seq start (length rows)).
Proof.
  induction rows as [|row rest IH]; intros start; cbv zeta.
  - repeat split; constructor.
  - cbn [imap Promise_all].
    pose proof (classifyRecord_outcome structuredDefs tenantId jobId d (start + 0) row) as Hrow.
    destruct (classifyRecord structuredDefs tenantId jobId d (start + 0) row)
      as [log [[]|e]].
    + destruct Hrow as (doc & -> & Hdoc).
      specialize (IH (S start)). cbv zeta in IH.
      assert (imap ((fun i => classifyRecord structuredDefs tenantId jobId d (start + i)) ∘ S)
                rest
              = imap (fun i => classifyRecord structuredDefs tenantId jobId d (S start + i))
                  rest) as ->.
      { apply imap_ext. intros i x _. cbn. f_equal. lia. }
      destruct (Promise_all _) as [log' outcome']. cbn [fst snd] in *.
      destruct IH as (Hdocs & Hjob & Hread & Hkeys).
      rewrite Nat.add_0_r in *.
      repeat split; try done.
      * by constructor.
      * intros Hdone. cbn. f_equal. by apply Hkeys.
    + subst log. specialize (IH (S start)). cbv zeta in IH.
      assert (imap ((fun i => classifyRecord structuredDefs tenantId jobId d (start + i)) ∘ S)
                rest
              = imap (fun i => classifyRecord structuredDefs tenantId jobId d (S start + i))
                  rest) as ->.
      { apply imap_ext. intros i x _. cbn. f_equal. lia. }
      destruct (Promise_all _) as [log' outcome']. cbn [fst snd app] in *.
      destruct IH as (Hdocs & Hjob & Hread & _).
      repeat split; try done.
Qed.

End PerRowWrites.

Lemma processCSV_log NumberToString StringToNumber d :
  (processCSV NumberToString StringToNumber d).1
  = (processCSV_try NumberToString StringToNumber d).1.
Proof.
  unfold processCSV. by destruct (processCSV_try NumberToString StringToNumber d) as [log [[]|e]].
Qed.

Lemma rowsRead_job tenantId jobId w log :
  rowsRead (JobWritten tenantId jobId w :: log) = rowsRead log.
Proof. reflexivity. Qed.

Lemma rowWrites_job tenantId jobId w log :
  rowWrites (JobWritten tenantId jobId w :: log) = rowWrites log.
Proof. reflexivity. Qed.

Lemma rowsRead_reads l : rowsRead (map RowRead l) = l.
Proof.
  induction l as [|i l IH]; [reflexivity|].
  change (i :: rowsRead (map RowRead l) = i :: l). by rewrite IH.
Qed.

Lemma rowWrites_reads l : rowWrites (map RowRead l) = [].
Proof. induction l; [reflexivity | exact IHl]. Qed.

Lemma everyRowSet_reads P l : everyRowSet P (map RowRead l).
Proof. induction l; constructor; [exact I | exact IHl]. Qed.




(** A delivery for a file outside [uploads/{tenantId}/{jobId}/{filename}],
    or without event data, or with an empty taxonomy, is dropped without
    a trace: the function returns normally and writes nothing, neither a
    job document nor an error. *)
Theorem processCSV_ignores NumberToString StringToNumber d structuredDefs :
  taxonomyDoc d = Some structuredDefs ->
  size structuredDefs = 0 \/
  eventData d = None \/
  (exists fileData,
      eventData d = Some fileData /\
      (given (fileName fileData) = false \/
       given (bucket fileData) = false \/
       length (split (default "" (fileName fileData))) < 4 \/
       part (split (default "" (fileName fileData))) 0 <> "uploads")) ->
  processCSV NumberToString StringToNumber d = ([], Normal tt).
Proof.
  intros Hdefs Hwhy. unfold processCSV, processCSV_try.
  rewrite Hdefs. cbn [getStructuredDefinitions]. rewrite bind_lift.
  destruct (size structuredDefs =? 0) eqn:Hsize; [reflexivity|].
  apply Nat.eqb_neq in Hsize.
  destruct Hwhy as [?|[->|(fileData & -> & Hbad)]]; [done|reflexivity|].
  destruct (negb (given (fileName fileData)) || negb (given (bucket fileData))) eqn:Hgiven;
    [reflexivity|].
  apply orb_false_iff in Hgiven as [Hname Hbucket].
  apply negb_false_iff in Hname, Hbucket.
  destruct (_ || _) eqn:Hpath; [reflexivity|].
  apply orb_false_iff in Hpath as [Hlen Hfirst].
  apply Nat.ltb_ge in Hlen. apply negb_false_iff, String.eqb_eq in Hfirst.
  destruct Hbad as [?|[?|[?|?]]]; [congruence | congruence | lia | contradiction].
Qed.

(** A delivery for a file that is not under [uploads]. *)
Definition strayDelivery : Delivery :=
  {| eventData := Some {| fileName := Some "reports/acme/job42/data.csv";
                          bucket := Some "clarity-uploads" |};
     taxonomyDoc := Some sampleTaxonomy; records := sampleRows 3; streamError := None;
     answer := fun _ => ReplyParsed cloudEntry; rowWriteRejected := fun _ => false |}.

Lemma processCSV_ignores_witness :
  processCSV constantText constantNumber strayDelivery = ([], Normal tt).
Proof.
  refine (processCSV_ignores constantText constantNumber strayDelivery sampleTaxonomy
            eq_refl _).
  right. right. eexists. split; [reflexivity|].
  right. right. right. vm_compute. discriminate.
Defined.

(** ** From upload to job: the path *)

(** The destination [uploadFile] builds:
    [`uploads/${tenantId}/${pipelineId}/${jobId}/${originalFilename}`]. *)
Definition gcsPath (tenantId pipelineId jobId originalFilename : string) : string :=
  "uploads/" +:+ tenantId +:+ "/" +:+ pipelineId +:+ "/" +:+ jobId +:+ "/" +:+ originalFilename.

Fixpoint noSlash (s : string) : bool :=
  match s with
  | EmptyString => true
  | String c rest => negb (Ascii.eqb c "/"%char) && noSlash rest
  end.

Lemma split_cons c rest :
  split (String c rest)
  = if Ascii.eqb c "/"%char then EmptyString :: split rest
    else match split rest with
         | [] => [String c EmptyString]
         | seg :: segs => String c seg :: segs
         end.
Proof. reflexivity. Qed.

Lemma noSlash_cons c rest :
  noSlash (String c rest) = true -> Ascii.eqb c "/"%char = false /\ noSlash rest = true.
Proof.
  change (noSlash (String c rest)) with (negb (Ascii.eqb c "/"%char) && noSlash rest).
  intros H. apply andb_true_iff in H as [Hc Hrest]. by apply negb_true_iff in Hc.
Qed.

Lemma split_noSlash s : noSlash s = true -> split s = [s].
Proof.
  induction s as [|c rest IH]; [reflexivity|].
  intros H. apply noSlash_cons in H as [Hc Hrest].
  by rewrite split_cons, Hc, (IH Hrest).
Qed.

Lemma split_segment s rest :
  noSlash s = true -> split (s +:+ String "/"%char rest) = s :: split rest.
Proof.
  induction s as [|c s IH]; intros H.
  - change (EmptyString +:+ String "/"%char rest) with (String "/"%char rest).
    by rewrite split_cons.
  - apply noSlash_cons in H as [Hc Hs].
    change (String c s +:+ String "/"%char rest) with (String c (s +:+ String "/"%char rest)).
    by rewrite split_cons, Hc, (IH Hs).
Qed.

Lemma split_gcsPath tenantId pipelineId jobId originalFilename :
  noSlash tenantId = true -> noSlash pipelineId = true -> noSlash jobId = true ->
  split (gcsPath tenantId pipelineId jobId originalFilename)
  = "uploads" :: tenantId :: pipelineId :: jobId :: split originalFilename.
Proof.
  intros Ht Hp Hj. unfold gcsPath.
  change ("uploads/" +:+ ?x) with ("uploads" +:+ String "/"%char x).
  rewrite split_segment by reflexivity.
  change ("/" +:+ pipelineId +:+ "/" +:+ jobId +:+ "/" +:+ originalFilename)
    with (String "/"%char (pipelineId +:+ String "/"%char
                             (jobId +:+ String "/"%char originalFilename))).
  by rewrite !split_segment.
Qed.

(** The job run on a file that [uploadFile] stored takes the third
    segment of the path for the job id: it opens the job document under
    the upload's pipeline id, and records the upload's job id as the
    original file name.  The ids are those [uploadFile] lets through,
    which are not empty, and hold no slash. *)
Theorem uploaded_path_job_record NumberToString StringToNumber batchSize inv gcsBucket
    tenantId pipelineId jobId originalFilename :
  tenantId <> "" -> pipelineId <> "" -> jobId <> "" ->
  noSlash tenantId = true -> noSlash pipelineId = true -> noSlash jobId = true ->
  gcsBucket <> "" ->
  args inv = [gcsBucket; gcsPath tenantId pipelineId jobId originalFilename] ->
  exists rest,
    (job_sized NumberToString StringToNumber batchSize inv).1
    = JobWritten tenantId pipelineId (JobSet true pipelineId jobId reading) :: rest.
Proof.
  intros _ _ _ Ht Hp Hj Hb Hargs.
  assert (split (gcsPath tenantId pipelineId jobId originalFilename)
          = "uploads" :: tenantId :: pipelineId :: jobId :: split originalFilename) as Hsplit
    by (by apply split_gcsPath).
  unfold job_sized, main_sized. rewrite Hargs. cbn [lookup list_lookup].
  rewrite !given_Some; [|done|done].
  change (default "" (Some ?x)) with x. rewrite Hsplit.
  cbn [length part lookup list_lookup default from_option id Nat.ltb Nat.leb].
  change (String.eqb "uploads" "uploads") with true. cbn [negb orb].
  rewrite bind_emit. cbn [fst snd].
  destruct (_ ≫= _) as [log [[]|e]]; cbn [fst snd]; eauto.
Qed.

(** The job invoked on the file of an upload by tenant [acme] into
    pipeline [invoices] as job [job42]. *)
Definition uploadedInvocation : Invocation :=
  {| args := ["clarity-data"; gcsPath "acme" "invoices" "job42" "data.csv"];
     definitionsDoc := Some sampleTaxonomy; rows := sampleRows 1; readError := None;
     oracle := answering cloudEntry |}.

Lemma uploaded_path_job_record_witness :
  exists rest,
    (job_sized constantText constantNumber BATCH_SIZE uploadedInvocation).1
    = JobWritten "acme" "invoices" (JobSet true "invoices" "job42" reading) :: rest.
Proof.
  refine (uploaded_path_job_record constantText constantNumber BATCH_SIZE uploadedInvocation
            "clarity-data" "acme" "invoices" "job42" "data.csv"
            _ _ _ eq_refl eq_refl eq_refl _ eq_refl); discriminate.
Defined.

(** ** The script that uploads the definitions *)

(** [row.k] for a parsed CSV row: the cell under header [k], if any. *)
Fixpoint column (row : RowData) (k : string) : option string :=
  match row with
  | [] => None
  | (k', v) :: rest => if String.eqb k' k then Some v else column rest k
  end.

(** What the script builds: as the taxonomy, with a definition left
    undefined when the row has no such cell. *)
Record BuiltSubPool : Type := {
  built_name : string;
  built_sub_definition : option string
}.
Record BuiltPool : Type := {
  built_definition : option string;
  built_sub_pools : list BuiltSubPool
}.
Abbreviation BuiltDefinitions := (gmap string BuiltPool).

(** The sub-pool a row contributes. *)
Definition entryOf (row : RowData) : BuiltSubPool :=
  {| built_name := default "" (column row "cost_sub_pool");
     built_sub_definition := column row "cost_sub_pool_definition" |}.

(** The ['data'] handler of [processAndUpload]:
<<
      if (!cost_pool || !cost_sub_pool) return;
      if (!structuredDefs[cost_pool]) { structuredDefs[cost_pool] = {...}; }
      structuredDefs[cost_pool].sub_pools.push({...});
>>
      The object under construction is a plain object: for a name that
      [Object.prototype] defines the test finds the inherited member, no
      pool is created, and the push is on a missing [sub_pools]. *)
Definition addDefinitionRow (structuredDefs : BuiltDefinitions) (row : RowData)
    : completion BuiltDefinitions :=
  let cost_pool := column row "cost_pool" in
  let cost_sub_pool := column row "cost_sub_pool" in
  if negb (given cost_pool) || negb (given cost_sub_pool) then Normal structuredDefs else
  let pool := default "" cost_pool in
  match structuredDefs !! pool with
  | Some built =>
      Normal (<[pool := {| built_definition := built_definition built;
                           built_sub_pools := built_sub_pools built ++ [entryOf row] |}]>
                structuredDefs)
  | None =>
      if bool_decide (pool ∈ ObjectPrototypeKeys) then Throw TypeError
      else Normal (<[pool := {| built_definition := column row "cost_pool_definition";
                                built_sub_pools := [entryOf row] |}]>
                     structuredDefs)
  end.

Fixpoint structureDefinitions (rows : list RowData) (structuredDefs : BuiltDefinitions)
    : completion BuiltDefinitions :=
  match rows with
  | [] => Normal structuredDefs
  | row :: rest =>
      structuredDefs ← addDefinitionRow structuredDefs row;
      structureDefinitions rest structuredDefs
  end.

(** [processAndUpload] on the rows of the definitions file: what it
    hands to [docRef.set({ data: structuredDefs })], or nothing when no
    pool was structured. *)
Definition processAndUpload (rows : list RowData) : completion (option BuiltDefinitions) :=
  structuredDefs ← structureDefinitions rows ∅;
  if size structuredDefs =? 0 then Normal None else Normal (Some structuredDefs).

(** A row that names pool and sub-pool; one that names the pool [p]; one
    that names a member of [Object.prototype]. *)
Definition usable (row : RowData) : bool :=
  given (column row "cost_pool") && given (column row "cost_sub_pool").

Definition names (p : string) (row : RowData) : bool :=
  usable row && String.eqb (default "" (column row "cost_pool")) p.

Definition namesInherited (row : RowData) : bool :=
  usable row && bool_decide (default "" (column row "cost_pool") ∈ ObjectPrototypeKeys).

(** A taxonomy document that holds the pools and sub-pool names of what
    was built. *)
Definition namesStored (structuredDefs : Taxonomy) (built : BuiltDefinitions) : Prop :=
  forall p b,
    built !! p = Some b ->
    exists poolData,
      structuredDefs !! p = Some poolData /\
      map name (sub_pools poolData) = map built_name (built_sub_pools b).

Lemma completion_bind_normal {A B} (m : completion A) (f : A -> completion B) b :
  m ≫= f = Normal b -> exists a, m = Normal a /\ f a = Normal b.
Proof. destruct m as [a|e]; [eauto | discriminate]. Qed.

Lemma names_usable p row : names p row = true -> usable row = true.
Proof. unfold names. intros H. by apply andb_true_iff in H as [? _]. Qed.

Lemma addDefinitionRow_skip structuredDefs row :
  usable row = false -> addDefinitionRow structuredDefs row = Normal structuredDefs.
Proof.
  unfold usable, addDefinitionRow. intros H. cbv zeta.
  destruct (given (column row "cost_pool")), (given (column row "cost_sub_pool"));
    try reflexivity. discriminate H.
Qed.

Lemma addDefinitionRow_usable structuredDefs row :
  usable row = true ->
  addDefinitionRow structuredDefs row
  = match structuredDefs !! default "" (column row "cost_pool") with
    | Some built =>
        Normal (<[default "" (column row "cost_pool") :=
                    {| built_definition := built_definition built;
                       built_sub_pools := built_sub_pools built ++ [entryOf row] |}]>
                  structuredDefs)
    | None =>
        if bool_decide (default "" (column row "cost_pool") ∈ ObjectPrototypeKeys)
        then Throw TypeError
        else Normal (<[default "" (column row "cost_pool") :=
                         {| built_definition := column row "cost_pool_definition";
                            built_sub_pools := [entryOf row] |}]>
                       structuredDefs)
    end.
Proof.
  unfold usable, addDefinitionRow. intros H. cbv zeta.
  apply andb_true_iff in H as [-> ->]. reflexivity.
Qed.

(** What the script has structured, pool by pool: the rows that name the
    pool give its sub-pools, in file order, after those it held before;
    the first of them gives the definition of a new pool. *)
Lemma structureDefinitions_lookup rows :
  forall held built p,
    structureDefinitions rows held = Normal built ->
    built !! p
    = match held !! p with
      | Some b =>
          Some {| built_definition := built_definition b;
                  built_sub_pools := built_sub_pools b
                                     ++ map entryOf (List.filter (names p) rows) |}
      | None =>
          match List.filter (names p) rows with
          | [] => None
          | first :: others =>
              Some {| built_definition := column first "cost_pool_definition";
                      built_sub_pools := map entryOf (first :: others) |}
          end
      end.
Proof.
  induction rows as [|row rest IH]; intros held built p H.
  - injection H as <-. cbn. destruct (held !! p) as [[]|]; [|reflexivity].
    cbn. by rewrite app_nil_r.
  - cbn [structureDefinitions] in H.
    apply completion_bind_normal in H as (held' & Hrow & Hrest).
    rewrite (IH _ _ p Hrest). cbn [List.filter].
    destruct (usable row) eqn:Huse.
    + rewrite addDefinitionRow_usable in Hrow by done.
      set (q := default "" (column row "cost_pool")) in *.
      assert (names p row = String.eqb q p) as -> by (unfold names; by rewrite Huse).
      destruct (String.eqb q p) eqn:Hq.
      * apply String.eqb_eq in Hq. subst p.
        destruct (held !! q) as [b|] eqn:Hheld.
        -- injection Hrow as <-. rewrite lookup_insert_eq. cbn.
           by rewrite <- app_assoc.
        -- destruct (bool_decide _); [discriminate|]. injection Hrow as <-.
           rewrite lookup_insert_eq. reflexivity.
      * apply String.eqb_neq in Hq.
        assert (held' !! p = held !! p) as ->; [|reflexivity].
        destruct (held !! q) as [b|].
        -- injection Hrow as <-. by rewrite lookup_insert_ne.
        -- destruct (bool_decide _); [discriminate|]. injection Hrow as <-.
           by rewrite lookup_insert_ne.
    + rewrite addDefinitionRow_skip in Hrow by done. injection Hrow as <-.
      assert (names p row = false) as -> by (unfold names; by rewrite Huse).
      reflexivity.
Qed.

Lemma processAndUpload_some rows built :
  processAndUpload rows = Normal (Some built) ->
  structureDefinitions rows ∅ = Normal built /\ size built <> 0.
Proof.
  unfold processAndUpload. intros H.
  apply completion_bind_normal in H as (defs & Hdefs & H).
  destruct (size defs =? 0) eqn:Hsize; [discriminate|].
  injection H as <-. by apply Nat.eqb_neq in Hsize.
Qed.

Lemma filter_names_In p row rows :
  In row rows -> names p row = true -> List.filter (names p) rows <> [].
Proof.
  intros Hin Hn Hnil.
  assert (In row (List.filter (names p) rows)) as Hf by (apply filter_In; by split).
  rewrite Hnil in Hf. destruct Hf.
Qed.

(** Rows that name an inherited member decide whether structuring
    throws, as long as no pool held so far has such a name. *)
Lemma structureDefinitions_outcome rows :
  forall held,
    (forall p, is_Some (held !! p) -> ~ In p ObjectPrototypeKeys) ->
    match structureDefinitions rows held with
    | Normal _ => existsb namesInherited rows = false
    | Throw e => e = TypeError /\ existsb namesInherited rows = true
    end.
Proof.
  induction rows as [|row rest IH]; intros held Hheld; [reflexivity|].
  cbn [structureDefinitions existsb]. unfold namesInherited at 1 3.
  destruct (usable row) eqn:Huse.
  - rewrite addDefinitionRow_usable by done.
    set (q := default "" (column row "cost_pool")).
    destruct (held !! q) as [b|] eqn:Hq.
    + assert (bool_decide (q ∈ ObjectPrototypeKeys) = false) as ->.
      { apply bool_decide_eq_false_2. intros Hin.
        apply (Hheld q); [by rewrite Hq | by apply list_elem_of_In]. }
      cbn [andb orb mbind completion_bind]. apply IH.
      intros p [x Hx]. apply Hheld.
      destruct (decide (q = p)) as [<-|Hne]; [by rewrite Hq|].
      rewrite lookup_insert_ne in Hx by done. by rewrite Hx.
    + destruct (bool_decide (q ∈ ObjectPrototypeKeys)) eqn:Hproto; [by split|].
      cbn [andb orb mbind completion_bind]. apply IH.
      intros p [x Hx].
      destruct (decide (q = p)) as [<-|Hne].
      * apply bool_decide_eq_false_1 in Hproto. intros Hin.
        by apply Hproto, list_elem_of_In.
      * rewrite lookup_insert_ne in Hx by done. apply Hheld. by rewrite Hx.
  - rewrite addDefinitionRow_skip by done. cbn [andb orb mbind completion_bind]. by apply IH.
Qed.

Lemma processAndUpload_lookup rows built p :
  processAndUpload rows = Normal (Some built) ->
  built !! p
  = match List.filter (names p) rows with
    | [] => None
    | first :: others =>
        Some {| built_definition := column first "cost_pool_definition";
                built_sub_pools := map entryOf (first :: others) |}
    end.
Proof.
  intros H. apply processAndUpload_some in H as [H _].
  rewrite (structureDefinitions_lookup rows ∅ built p H). by rewrite lookup_empty.
Qed.

Lemma processAndUpload_throws rows :
  processAndUpload rows = Throw TypeError <->
  exists row, In row rows /\ namesInherited row = true.
Proof.
  pose proof (structureDefinitions_outcome rows ∅) as H.
  unfold processAndUpload.
  destruct (structureDefinitions rows ∅) as [built|e].
  - cbn [mbind completion_bind]. split.
    + destruct (size built =? 0); discriminate.
    + intros Hex. apply existsb_exists in Hex.
      rewrite H in Hex; [discriminate|].
      intros p [x Hx]. by rewrite lookup_empty in Hx.
  - destruct H as [-> Hex]; [intros p [x Hx]; by rewrite lookup_empty in Hx|].
    split; [|reflexivity]. intros _. by apply existsb_exists.
Qed.

(** The definitions script structures the file pool by pool: a pool is
    built exactly when some row names it together with a sub-pool; its
    definition is that of the first such row, and its sub-pools are those
    of all such rows, in file order and with repetitions kept. *)
Theorem definitions_by_pool rows built p :
  processAndUpload rows = Normal (Some built) ->
  built !! p
  = match List.filter (names p) rows with
    | [] => None
    | first :: others =>
        Some {| built_definition := column first "cost_pool_definition";
                built_sub_pools := map entryOf (first :: others) |}
    end.
Proof. apply processAndUpload_lookup. Qed.

(** Rows of a small definitions file: two sub-pools of one pool, a row
    without sub-pool, and one sub-pool of a second pool. *)
Definition definitionRows : list RowData :=
  [ [ ("cost_pool", "IT"); ("cost_pool_definition", "Information technology");
      ("cost_sub_pool", "Cloud"); ("cost_sub_pool_definition", "Hosted services") ];
    [ ("cost_pool", "Facilities"); ("cost_pool_definition", "Buildings");
      ("cost_sub_pool", ""); ("cost_sub_pool_definition", "") ];
    [ ("cost_pool", "IT"); ("cost_pool_definition", "Computers");
      ("cost_sub_pool", "Hardware"); ("cost_sub_pool_definition", "Devices") ];
    [ ("cost_pool", "HR"); ("cost_pool_definition", "People");
      ("cost_sub_pool", "Payroll"); ("cost_sub_pool_definition", "Salaries") ] ].

Definition definitionsBuilt : BuiltDefinitions :=
  <["HR" := {| built_definition := Some "People";
               built_sub_pools := [ {| built_name := "Payroll";
                                       built_sub_definition := Some "Salaries" |} ] |}]>
    {[ "IT" := {| built_definition := Some "Information technology";
                  built_sub_pools :=
                    [ {| built_name := "Cloud"; built_sub_definition := Some "Hosted services" |};
                      {| built_name := "Hardware"; built_sub_definition := Some "Devices" |} ] |} ]}.

Lemma definitionRows_built : processAndUpload definitionRows = Normal (Some definitionsBuilt).
Proof. vm_compute. reflexivity. Qed.

Lemma definitions_by_pool_witness :
  definitionsBuilt !! "IT"
  = Some {| built_definition := Some "Information technology";
            built_sub_pools :=
              [ {| built_name := "Cloud"; built_sub_definition := Some "Hosted services" |};
                {| built_name := "Hardware"; built_sub_definition := Some "Devices" |} ] |}.
Proof.
  etransitivity.
  - exact (definitions_by_pool definitionRows definitionsBuilt "IT" definitionRows_built).
  - vm_compute. reflexivity.
Defined.

(** The script throws exactly when some row with a pool and a sub-pool
    names, as its pool, a property of [Object.prototype] (such as
    [constructor] or [toString]); nothing is uploaded then. *)
Theorem inherited_pool_name_aborts rows :
  processAndUpload rows = Throw TypeError <->
  exists row, In row rows /\ namesInherited row = true.
Proof. apply processAndUpload_throws. Qed.

(** Every pool the script uploads has a name that is not empty and that
    [Object.prototype] does not define, and at least one sub-pool; every
    sub-pool has a name that is not empty. *)
Theorem uploaded_pools_well_formed rows built p b :
  processAndUpload rows = Normal (Some built) ->
  built !! p = Some b ->
  p <> "" /\ ~ In p ObjectPrototypeKeys /\
  built_sub_pools b <> [] /\
  Forall (fun sp => built_name sp <> "") (built_sub_pools b).
Proof.
  intros Hup Hp.
  pose proof (processAndUpload_lookup rows built p Hup) as Hlook. rewrite Hp in Hlook.
  destruct (List.filter (names p) rows) as [|first others] eqn:Hgroup; [discriminate|].
  injection Hlook as ->.
  assert (forall row, In row (first :: others) ->
            In row rows /\ usable row = true /\ default "" (column row "cost_pool") = p)
    as Hrows.
  { intros row Hin. rewrite <- Hgroup in Hin. apply filter_In in Hin as [Hin Hn].
    unfold names in Hn. apply andb_true_iff in Hn as [Huse Heq].
    by apply String.eqb_eq in Heq. }
  destruct (Hrows first (or_introl eq_refl)) as (Hin & Huse & Hpool).
  pose proof Huse as Huse'. unfold usable in Huse'.
  apply andb_true_iff in Huse' as [Hgp _].
  split; [|split; [|split]].
  - intros ->. destruct (column first "cost_pool") as [s|]; [|discriminate Hgp].
    cbn in Hpool. subst s. discriminate Hgp.
  - intros Hproto.
    assert (processAndUpload rows = Throw TypeError) as Hthrow; [|congruence].
    apply processAndUpload_throws. exists first. split; [done|].
    unfold namesInherited. rewrite Huse, Hpool. cbn [andb].
    by apply bool_decide_eq_true_2, list_elem_of_In.
  - discriminate.
  - cbn [built_sub_pools]. apply Forall_forall. intros sp Hsp.
    apply list_elem_of_In in Hsp.
    change (In sp (map entryOf (first :: others))) in Hsp.
    apply in_map_iff in Hsp as (row & <- & Hrow).
    destruct (Hrows row Hrow) as (_ & Hu & _). unfold usable in Hu.
    apply andb_true_iff in Hu as [_ Hsub]. cbn [entryOf built_name].
    destruct (column row "cost_sub_pool") as [s|]; [|discriminate Hsub].
    cbn. intros ->. discriminate Hsub.
Qed.

Lemma uploaded_pools_well_formed_witness :
  processAndUpload definitionRows = Normal (Some definitionsBuilt) /\
  ~ In "IT" ObjectPrototypeKeys.
Proof.
  split; [exact definitionRows_built|].
  refine (proj1 (proj2 (uploaded_pools_well_formed definitionRows definitionsBuilt "IT" _
                          definitionRows_built _))).
  vm_compute. reflexivity.
Defined.

Lemma structureDefinitions_unusable rows held :
  Forall (fun row => usable row = false) rows ->
  structureDefinitions rows held = Normal held.
Proof.
  induction 1 as [|row rest Hrow _ IH]; [reflexivity|].
  cbn [structureDefinitions]. by rewrite addDefinitionRow_skip.
Qed.

(** The script uploads nothing and ends quietly exactly when no row of
    the file has both a pool and a sub-pool. *)
Theorem nothing_to_upload rows :
  processAndUpload rows = Normal None <-> Forall (fun row => usable row = false) rows.
Proof.
  split.
  - unfold processAndUpload. intros H.
    apply completion_bind_normal in H as (built & Hbuilt & H).
    destruct (size built =? 0) eqn:Hsize; [|discriminate].
    apply Nat.eqb_eq, map_size_empty_iff in Hsize. subst built.
    apply Forall_forall. intros row Hin. apply list_elem_of_In in Hin.
    destruct (usable row) eqn:Huse; [|reflexivity]. exfalso.
    pose proof (structureDefinitions_lookup rows ∅ ∅
                  (default "" (column row "cost_pool")) Hbuilt) as Hlook.
    rewrite !lookup_empty in Hlook.
    destruct (List.filter _ rows) eqn:Hgroup; [|discriminate].
    apply (filter_names_In (default "" (column row "cost_pool")) row rows Hin);
      [|exact Hgroup].
    unfold names. rewrite Huse. cbn [andb]. apply String.eqb_refl.
  - intros H. unfold processAndUpload.
    by rewrite (structureDefinitions_unusable rows ∅ H).
Qed.

Lemma named_some pools s :
  In s (map name pools) -> existsb (fun sp => named sp (JStr s)) pools = true.
Proof.
  intros Hin. apply in_map_iff in Hin as (sp & <- & Hsp).
  apply existsb_exists. exists sp. split; [done|]. apply String.eqb_refl.
Qed.

(** Upload, then classify: against a taxonomy document that holds what
    the script built, the taxonomy check accepts every (pool, sub-pool)
    pair that a row of the definitions file names, and returns it as the
    classification. *)
Theorem uploaded_pair_is_accepted NumberToString rows built structuredDefs row result
    otherwise conf why :
  processAndUpload rows = Normal (Some built) ->
  namesStored structuredDefs built ->
  In row rows -> usable row = true ->
  Get result "cost_pool" = Normal (JStr (default "" (column row "cost_pool"))) ->
  Get result "cost_sub_pool" = Normal (JStr (default "" (column row "cost_sub_pool"))) ->
  Get result "confidence" = Normal conf ->
  Get result "reasoning" = Normal why ->
  validate NumberToString structuredDefs otherwise result
  = Normal {| cost_pool := JStr (default "" (column row "cost_pool"));
              cost_sub_pool := JStr (default "" (column row "cost_sub_pool"));
              confidence := or_else conf (JNum 0%float);
              reasoning := or_else why (JStr "No reasoning provided.") |}.
Proof.
  intros Hup Hstored Hin Huse Hpool Hsub Hconf Hwhy.
  set (p := default "" (column row "cost_pool")) in *.
  set (s := default "" (column row "cost_sub_pool")) in *.
  assert (names p row = true) as Hnames
    by (unfold names; rewrite Huse; apply String.eqb_refl).
  pose proof (processAndUpload_lookup rows built p Hup) as Hlook.
  destruct (List.filter (names p) rows) as [|first others] eqn:Hgroup.
  { exfalso. by apply (filter_names_In p row rows). }
  destruct (Hstored p _ Hlook) as (poolData & Hown & Hsubs).
  cbn [built_sub_pools] in Hsubs.
  assert (In s (map name (sub_pools poolData))) as Hs.
  { rewrite Hsubs, map_map. apply in_map_iff. exists row. split; [reflexivity|].
    rewrite <- Hgroup. apply filter_In. by split. }
  assert (truthy (JStr p) = true) as Htruthy.
  { unfold usable in Huse. apply andb_true_iff in Huse as [Hgp _]. subst p.
    destruct (column row "cost_pool"); [exact Hgp | discriminate Hgp]. }
  unfold validate. rewrite Hpool. cbn [mbind completion_bind]. rewrite Htruthy.
  cbn [ToString mbind completion_bind]. unfold readTaxonomy. rewrite Hown, Hsub.
  cbn [mbind completion_bind]. rewrite (named_some _ _ Hs), Hconf, Hwhy. reflexivity.
Qed.

(** The taxonomy document after the upload of [definitionRows]. *)
Definition definitionsTaxonomy : Taxonomy :=
  <["HR" := {| definition := "People";
               sub_pools := [ {| name := "Payroll"; sub_definition := "Salaries" |} ] |}]>
    {[ "IT" := {| definition := "Information technology";
                  sub_pools :=
                    [ {| name := "Cloud"; sub_definition := "Hosted services" |};
                      {| name := "Hardware"; sub_definition := "Devices" |} ] |} ]}.

Lemma definitionsTaxonomy_stored : namesStored definitionsTaxonomy definitionsBuilt.
Proof.
  intros p b H. unfold definitionsBuilt in H.
  apply lookup_insert_Some in H as [[<- <-]|[_ H]].
  - eexists. split; [vm_compute; reflexivity | reflexivity].
  - apply lookup_singleton_Some in H as [<- <-].
    eexists. split; [vm_compute; reflexivity | reflexivity].
Qed.

Lemma uploaded_pair_is_accepted_witness :
  validate constantText definitionsTaxonomy
    (fallback "AI response was missing, invalid, or could not be parsed.")
    (JObj [ ("cost_pool", JStr "IT"); ("cost_sub_pool", JStr "Hardware") ])
  = Normal {| cost_pool := JStr "IT"; cost_sub_pool := JStr "Hardware";
              confidence := JNum 0%float;
              reasoning := JStr "No reasoning provided." |}.
Proof.
  refine (uploaded_pair_is_accepted constantText definitionRows definitionsBuilt
            definitionsTaxonomy
            [ ("cost_pool", "IT"); ("cost_pool_definition", "Computers");
              ("cost_sub_pool", "Hardware"); ("cost_sub_pool_definition", "Devices") ]
            (JObj [ ("cost_pool", JStr "IT"); ("cost_sub_pool", JStr "Hardware") ])
            _ JUndefined JUndefined
            definitionRows_built definitionsTaxonomy_stored _ eq_refl eq_refl eq_refl
            eq_refl eq_refl).
  right. right. left. reflexivity.
Defined.

(** ** The HTTP functions: who is calling *)

(** [s.split(sep)] for a separator that is not empty: [skip] counts the
    characters of a separator just found that are still to be passed. *)
Fixpoint split_on_from (sep s : string) (skip : nat) : list string :=
  match s with
  | EmptyString => [EmptyString]
  | String c rest =>
      match skip with
      | S k => split_on_from sep rest k
      | 0 =>
          if String.prefix sep s
          then EmptyString :: split_on_from sep rest (String.length sep - 1)
          else match split_on_from sep rest 0 with
               | [] => [String c EmptyString]
               | seg :: segs => String c seg :: segs
               end
      end
  end.

Definition split_on (sep s : string) : list string := split_on_from sep s 0.

(** [req.headers.authorization?.split('Bearer ')[1]]. *)
Definition bearerToken (authorization : option string) : option string :=
  match authorization with
  | None => None
  | Some header => split_on "Bearer " header !! 1
  end.

(** The claims of a verified token that the functions read. *)
Record DecodedToken : Type := {
  token_tenantId : option string;
  token_role : option string;
  token_email : option string
}.

(** A request as the functions read it, and what they send back.  A
    function that throws outside its [try] sends nothing. *)
Record Request : Type := {
  method : string;
  authorization : option string;
  body : jsval
}.

Inductive Reply : Type :=
| Sent (status : nat) (message : string)
| SentUsers (status : nat)
    (users : list (string * option string * string * bool * option string))
| Unhandled.

(** The common opening of the functions, up to the verified token:
    preflight, missing token, invalid token. *)
Inductive Caller : Type :=
| Preflight
| NoToken
| BadToken
| Verified (decodedToken : DecodedToken).

Definition caller (verifyIdToken : string -> option DecodedToken) (req : Request) : Caller :=
  if String.eqb (method req) "OPTIONS" then Preflight else
  let idToken := bearerToken (authorization req) in
  if negb (given idToken) then NoToken else
  match verifyIdToken (default "" idToken) with
  | None => BadToken
  | Some decodedToken => Verified decodedToken
  end.

(** ** [manageUser] *)

(** A user of the authentication service, as [manageUser] reads and
    writes it. *)
Record CustomClaims : Type := {
  claimed_tenantId : option string;
  claimed_role : option string
}.
Record UserRecord : Type := {
  user_email : option string;
  customClaims : option CustomClaims;
  user_disabled : bool;
  lastSignInTime : option string
}.
Abbreviation Users := (gmap string UserRecord).

(** [user.customClaims?.tenantId] and [user.customClaims?.role]. *)
Definition tenantOf (user : UserRecord) : option string :=
  c ← customClaims user; claimed_tenantId c.
Definition roleOf (user : UserRecord) : option string :=
  c ← customClaims user; claimed_role c.

(** [auth.getUser(uid)]: the user with that id, or a rejection. *)
Definition getUser (users : Users) (uid : jsval) : option UserRecord :=
  match uid with
  | JStr id => users !! id
  | _ => None
  end.

Definition uidOf (uid : jsval) : string :=
  match uid with
  | JStr id => id
  | _ => EmptyString
  end.

(** [{ ...user.customClaims, role: newRole }]. *)
Definition withRole (user : UserRecord) (newRole : string) : UserRecord :=
  {| user_email := user_email user;
     customClaims := Some {| claimed_tenantId := tenantOf user; claimed_role := Some newRole |};
     user_disabled := user_disabled user;
     lastSignInTime := lastSignInTime user |}.

Definition withDisabled (user : UserRecord) (disabled : bool) : UserRecord :=
  {| user_email := user_email user;
     customClaims := customClaims user;
     user_disabled := disabled;
     lastSignInTime := lastSignInTime user |}.

(** [['uploader', 'viewer'].includes(newRole)], with the role when so. *)
Definition assignableRole (newRole : jsval) : option string :=
  match newRole with
  | JStr r => if String.eqb r "uploader" || String.eqb r "viewer" then Some r else None
  | _ => None
  end.

(** The entry of [listUsers] for one user. *)
Definition listed (entry : string * UserRecord)
    : string * option string * string * bool * option string :=
  (entry.1, user_email entry.2,
   match roleOf entry.2 with
   | Some r => if String.eqb r "" then "viewer" else r
   | None => "viewer"
   end,
   user_disabled entry.2,
   lastSignInTime entry.2).

Definition sameTenant (adminTenantId : string) (user : UserRecord) : bool :=
  match tenantOf user with
  | Some t => String.eqb t adminTenantId
  | None => false
  end.

(** What the authentication service does with a request of the
    function: [page] is what [auth.listUsers(1000)] returns, if it does
    not reject; [carriedOut] tells whether the service carries out the
    change it is asked for, or rejects it. *)
Record AuthService : Type := {
  page : option (list (string * UserRecord));
  carriedOut : bool
}.

(** The [switch] of [manageUser], inside its [try]; [None] stands for a
    rejection of the authentication service, which the [catch] turns into
    a 500. *)
Definition manageAction (service : AuthService) (adminTenantId : string)
    (action uid newRole disabled : jsval) (users : Users) : option (Reply * Users) :=
  let other := Some (Sent 400 "Invalid action specified.", users) in
  match action with
  | JStr name =>
      if String.eqb name "listUsers" then
        listUsersResult ← page service;
        Some (SentUsers 200
                (map listed
                   (List.filter (fun e => sameTenant adminTenantId e.2) listUsersResult)),
              users)
      else if String.eqb name "updateRole" then
        match assignableRole newRole with
        | Some role =>
            if negb (truthy uid) then Some (Sent 400 "Invalid UID or role provided.", users) else
            user ← getUser users uid;
            if negb (sameTenant adminTenantId user)
            then Some (Sent 403 "Forbidden: Cannot manage users of another tenant.", users)
            else if negb (carriedOut service) then None
            else Some (Sent 200 ("Successfully updated role for user "
                                 +:+ default "undefined" (user_email user)
                                 +:+ " to " +:+ role +:+ "."),
                       <[uidOf uid := withRole user role]> users)
        | None => Some (Sent 400 "Invalid UID or role provided.", users)
        end
      else if String.eqb name "disableUser" then
        match disabled with
        | JBool flag =>
            if negb (truthy uid)
            then Some (Sent 400 "Invalid UID or disabled status provided.", users) else
            user ← getUser users uid;
            if negb (sameTenant adminTenantId user)
            then Some (Sent 403 "Forbidden: Cannot manage users of another tenant.", users)
            else if negb (carriedOut service) then None
            else Some (Sent 200 ("Successfully "
                                 +:+ (if flag then "disabled" else "enabled")
                                 +:+ " user " +:+ default "undefined" (user_email user)
                                 +:+ "."),
                       <[uidOf uid := withDisabled user flag]> users)
        | _ => Some (Sent 400 "Invalid UID or disabled status provided.", users)
        end
      else if String.eqb name "deleteUser" then
        if negb (truthy uid) then Some (Sent 400 "Invalid UID provided.", users) else
        user ← getUser users uid;
        if negb (sameTenant adminTenantId user)
        then Some (Sent 403 "Forbidden: Cannot manage users of another tenant.", users)
        else if negb (carriedOut service) then None
        else Some (Sent 200 "Successfully deleted user.", delete (uidOf uid) users)
      else other
  | _ => other
  end.

(** [manageUser]: the reply, and the users of the authentication service
    afterwards. *)
Definition manageUser (verifyIdToken : string -> option DecodedToken)
    (service : AuthService) (req : Request) (users : Users) : Reply * Users :=
  match caller verifyIdToken req with
  | Preflight => (Sent 204 "", users)
  | NoToken => (Sent 401 "Unauthorized", users)
  | BadToken => (Sent 401 "Invalid token.", users)
  | Verified decodedToken =>
      if negb (bool_decide (token_role decodedToken = Some "admin"))
         || negb (given (token_tenantId decodedToken))
      then (Sent 403 "Forbidden: Caller is not a tenant admin.", users) else
      match Get (body req) "action", Get (body req) "uid",
            Get (body req) "newRole", Get (body req) "disabled" with
      | Normal action, Normal uid, Normal newRole, Normal disabled =>
          match manageAction service (default "" (token_tenantId decodedToken))
                  action uid newRole disabled users with
          | Some result => result
          | None => (Sent 500 "An internal error occurred.", users)
          end
      | _, _, _, _ => (Unhandled, users)
      end
  end.

(** What a call of [manageUser] can do to the users: nothing, or, for a
    caller who is admin of a tenant, delete one user of that tenant or
    replace it by the same user with another role or another disabled
    flag. *)
Inductive Managed (adminTenantId : option string) (users : Users) : Users -> Prop :=
| Untouched : Managed adminTenantId users users
| Deleted id target :
    users !! id = Some target -> tenantOf target = adminTenantId ->
    Managed adminTenantId users (delete id users)
| Replaced id target target' :
    users !! id = Some target -> tenantOf target = adminTenantId ->
    tenantOf target' = tenantOf target ->
    user_email target' = user_email target ->
    roleOf target' = roleOf target \/ roleOf target' = Some "uploader"
    \/ roleOf target' = Some "viewer" ->
    Managed adminTenantId users (<[id := target']> users).

Lemma getUser_Some users uid user :
  getUser users uid = Some user -> users !! uidOf uid = Some user.
Proof. by destruct uid. Qed.

Lemma sameTenant_true adminTenantId user :
  sameTenant adminTenantId user = true -> tenantOf user = Some adminTenantId.
Proof.
  unfold sameTenant. destruct (tenantOf user) as [t|]; [|discriminate].
  intros H. apply String.eqb_eq in H. by subst.
Qed.

Lemma assignableRole_Some newRole role :
  assignableRole newRole = Some role -> role = "uploader" \/ role = "viewer".
Proof.
  destruct newRole as [| | | |r| |]; try discriminate. cbn.
  destruct (String.eqb r "uploader") eqn:Hu; cbn.
  - intros [= <-]. left. by apply String.eqb_eq.
  - destruct (String.eqb r "viewer") eqn:Hv; [|discriminate].
    intros [= <-]. right. by apply String.eqb_eq.
Qed.

Lemma manageAction_managed service adminTenantId action uid newRole disabled users reply users' :
  manageAction service adminTenantId action uid newRole disabled users = Some (reply, users') ->
  Managed (Some adminTenantId) users users'.
Proof.
  unfold manageAction. cbv zeta.
  destruct action as [| | | |name| |]; try (intros [= _ <-]; constructor).
  destruct (String.eqb name "listUsers").
  { destruct (page service); [|discriminate]. intros [= _ <-]. constructor. }
  destruct (String.eqb name "updateRole").
  { destruct (assignableRole newRole) as [role|] eqn:Hrole; [|intros [= _ <-]; constructor].
    destruct (truthy uid); cbn [negb]; [|intros [= _ <-]; constructor].
    destruct (getUser users uid) as [user|] eqn:Huser; [|discriminate].
    cbn [mbind option_bind].
    destruct (sameTenant adminTenantId user) eqn:Hsame; cbn [negb];
      [|intros [= _ <-]; constructor].
    destruct (carriedOut service); cbn [negb]; [|discriminate].
    intros [= _ <-]. apply (Replaced _ _ _ user).
    - by apply getUser_Some.
    - by apply sameTenant_true.
    - reflexivity.
    - reflexivity.
    - right. apply assignableRole_Some in Hrole as [-> | ->]; auto. }
  destruct (String.eqb name "disableUser").
  { destruct disabled as [| |flag| | | |]; try (intros [= _ <-]; constructor).
    destruct (truthy uid); cbn [negb]; [|intros [= _ <-]; constructor].
    destruct (getUser users uid) as [user|] eqn:Huser; [|discriminate].
    cbn [mbind option_bind].
    destruct (sameTenant adminTenantId user) eqn:Hsame; cbn [negb];
      [|intros [= _ <-]; constructor].
    destruct (carriedOut service); cbn [negb]; [|discriminate].
    intros [= _ <-]. apply (Replaced _ _ _ user).
    - by apply getUser_Some.
    - by apply sameTenant_true.
    - reflexivity.
    - reflexivity.
    - by left. }
  destruct (String.eqb name "deleteUser"); [|intros [= _ <-]; constructor].
  destruct (truthy uid); cbn [negb]; [|intros [= _ <-]; constructor].
  destruct (getUser users uid) as [user|] eqn:Huser; [|discriminate].
  cbn [mbind option_bind].
  destruct (sameTenant adminTenantId user) eqn:Hsame; cbn [negb];
    [|intros [= _ <-]; constructor].
  destruct (carriedOut service); cbn [negb]; [|discriminate].
  intros [= _ <-]. apply (Deleted _ _ _ user).
  - by apply getUser_Some.
  - by apply sameTenant_true.
Qed.

Lemma manageUser_managed verifyIdToken service req users :
  (manageUser verifyIdToken service req users).2 = users \/
  exists decodedToken tenantId,
    caller verifyIdToken req = Verified decodedToken /\
    token_role decodedToken = Some "admin" /\
    token_tenantId decodedToken = Some tenantId /\
    Managed (Some tenantId) users (manageUser verifyIdToken service req users).2.
Proof.
  unfold manageUser.
  destruct (caller verifyIdToken req) as [| | |decodedToken]; try by left.
  destruct (bool_decide (token_role decodedToken = Some "admin")) eqn:Hrole;
    cbn [negb orb]; [|by left].
  apply bool_decide_eq_true in Hrole.
  destruct (given (token_tenantId decodedToken)) eqn:Htenant; cbn [negb]; [|by left].
  destruct (token_tenantId decodedToken) as [tenantId|] eqn:Htoken; [|discriminate].
  cbn [default from_option id].
  destruct (Get (body req) "action") as [action|]; [|by left].
  destruct (Get (body req) "uid") as [uid|]; [|by left].
  destruct (Get (body req) "newRole") as [newRole|]; [|by left].
  destruct (Get (body req) "disabled") as [disabled|]; [|by left].
  destruct (manageAction service tenantId action uid newRole disabled users)
    as [[reply users']|] eqn:Haction; [|by left].
  right. exists decodedToken, tenantId. repeat split; try done.
  by eapply manageAction_managed.
Qed.

(** Sample users of two tenants, a token service that knows one admin
    and one uploader of the first tenant, and requests of theirs. *)
Definition sampleUser (tenantId role : string) : UserRecord :=
  {| user_email := Some (role +:+ "@" +:+ tenantId);
     customClaims := Some {| claimed_tenantId := Some tenantId; claimed_role := Some role |};
     user_disabled := false;
     lastSignInTime := None |}.

Definition sampleUsers : Users :=
  <["u1" := sampleUser "acme" "viewer"]>
    (<["u2" := sampleUser "globex" "viewer"]> (∅ : Users)).

Definition sampleVerify (idToken : string) : option DecodedToken :=
  if String.eqb idToken "admin-token"
  then Some {| token_tenantId := Some "acme"; token_role := Some "admin";
               token_email := Some "admin@acme" |}
  else if String.eqb idToken "uploader-token"
  then Some {| token_tenantId := Some "acme"; token_role := Some "uploader";
               token_email := Some "uploader@acme" |}
  else None.

Definition sampleService : AuthService :=
  {| page := Some (map_to_list sampleUsers); carriedOut := true |}.

Definition sampleRequest (idToken : string) (fields : list (string * jsval)) : Request :=
  {| method := "POST";
     authorization := Some ("Bearer " +:+ idToken);
     body := JObj fields |}.

(** [manageUser] leaves the users of other tenants alone: a user whose
    tenant is not the tenant of the verified admin who calls is, after
    the call, what it was before, whatever the request asks for. *)
Theorem manageUser_tenant_isolation verifyIdToken service req users id user :
  users !! id = Some user ->
  (forall decodedToken,
     caller verifyIdToken req = Verified decodedToken ->
     token_role decodedToken = Some "admin" ->
     tenantOf user <> token_tenantId decodedToken) ->
  (manageUser verifyIdToken service req users).2 !! id = Some user.
Proof.
  intros Hid Hother.
  destruct (manageUser_managed verifyIdToken service req users)
    as [-> | (decodedToken & tenantId & Hcaller & Hrole & Htenant & Hmanaged)]; [done|].
  specialize (Hother decodedToken Hcaller Hrole). rewrite Htenant in Hother.
  destruct Hmanaged as [|id' target Hid' Htarget|id' target target' Hid' Htarget _ _ _];
    [done| |].
  - destruct (decide (id' = id)) as [->|Hne].
    + rewrite Hid in Hid'. by injection Hid' as <-.
    + by rewrite lookup_delete_ne.
  - destruct (decide (id' = id)) as [->|Hne].
    + rewrite Hid in Hid'. by injection Hid' as <-.
    + by rewrite lookup_insert_ne.
Qed.

Lemma manageUser_tenant_isolation_witness :
  (manageUser sampleVerify sampleService
     (sampleRequest "admin-token" [("action", JStr "deleteUser"); ("uid", JStr "u2")])
     sampleUsers).2 !! "u2" = Some (sampleUser "globex" "viewer").
Proof.
  apply manageUser_tenant_isolation.
  - reflexivity.
  - intros decodedToken Hcaller _. vm_compute in Hcaller.
    injection Hcaller as <-. discriminate.
Defined.

(** [manageUser] creates no user, moves no user to another tenant,
    changes no email address, and gives no role but [uploader] and
    [viewer]: a user found after a call was there before it, with the
    same tenant and email, and with the role it had or one of those
    two. *)
Theorem manageUser_no_escalation verifyIdToken service req users id user' :
  (manageUser verifyIdToken service req users).2 !! id = Some user' ->
  exists user,
    users !! id = Some user /\
    tenantOf user' = tenantOf user /\
    user_email user' = user_email user /\
    (roleOf user' = roleOf user \/ roleOf user' = Some "uploader"
     \/ roleOf user' = Some "viewer").
Proof.
  destruct (manageUser_managed verifyIdToken service req users)
    as [-> | (decodedToken & tenantId & _ & _ & _ & Hmanaged)]; [by eauto 6|].
  destruct Hmanaged
    as [|id' target Hid' _|id' target target' Hid' _ Htenant Hemail Hrole];
    [by eauto 6| |].
  - intros Hid. apply lookup_delete_Some in Hid as [_ Hid]. by eauto 6.
  - intros Hid. apply lookup_insert_Some in Hid as [[-> <-] | [_ Hid]]; by eauto 6.
Qed.

Lemma manageUser_no_escalation_witness :
  exists user,
    sampleUsers !! "u1" = Some user /\
    tenantOf (withRole (sampleUser "acme" "viewer") "uploader") = tenantOf user /\
    user_email (withRole (sampleUser "acme" "viewer") "uploader") = user_email user /\
    (roleOf (withRole (sampleUser "acme" "viewer") "uploader") = roleOf user
     \/ roleOf (withRole (sampleUser "acme" "viewer") "uploader") = Some "uploader"
     \/ roleOf (withRole (sampleUser "acme" "viewer") "uploader") = Some "viewer").
Proof.
  apply (manageUser_no_escalation sampleVerify sampleService
           (sampleRequest "admin-token"
              [("action", JStr "updateRole"); ("uid", JStr "u1");
               ("newRole", JStr "uploader")])
           sampleUsers "u1").
  reflexivity.
Defined.

(** ** The bearer token *)

(** Whether [sep] occurs in [s]. *)
Fixpoint occurs (sep s : string) : bool :=
  String.prefix sep s ||
  match s with
  | EmptyString => false
  | String _ rest => occurs sep rest
  end.

Lemma split_on_whole sep s : occurs sep s = false -> split_on_from sep s 0 = [s].
Proof.
  induction s as [|c rest IH]; [done|].
  cbn [occurs]. intros H. apply orb_false_iff in H as [Hprefix Hrest].
  cbn [split_on_from]. rewrite Hprefix, (IH Hrest). reflexivity.
Qed.

(** The functions read the token of a header [Bearer <token>] back
    whole, when the token does not itself contain [Bearer ] (where it
    does, they read only what comes before that). *)
Theorem bearerToken_reads_token idToken :
  occurs "Bearer " idToken = false ->
  bearerToken (Some ("Bearer " +:+ idToken)) = Some idToken.
Proof.
  intros H. unfold bearerToken, split_on.
  change ("Bearer " +:+ idToken)
    with (String "B" (String "e" (String "a" (String "r" (String "e" (String "r"
            (String " " idToken))))))).
  cbn [split_on_from].
  replace (String.prefix "Bearer " _) with true by (by destruct idToken).
  change (String.length "Bearer " - 1) with 6.
  cbn [split_on_from]. rewrite (split_on_whole _ _ H). reflexivity.
Qed.

Lemma bearerToken_reads_token_witness :
  bearerToken (Some ("Bearer " +:+ "admin-token")) = Some "admin-token".
Proof. apply bearerToken_reads_token. reflexivity. Defined.

(** ** [updateRowClassification] *)

(** [a !== b] for a value read from a stored document and a value of
    the request body.  Primitives are compared by value, numbers as
    IEEE numbers; an object or an array equals only itself, and these
    two come from different places. *)
Definition differs (a b : jsval) : bool :=
  match a, b with
  | JUndefined, JUndefined => false
  | JNull, JNull => false
  | JBool x, JBool y => negb (Bool.eqb x y)
  | JNum x, JNum y => negb (PrimFloat.eqb x y)
  | JStr x, JStr y => negb (String.eqb x y)
  | _, _ => true
  end.

(** A stored row document, by field, and an entry of [auditEvents]. *)
Abbreviation Row := (gmap string jsval).

Record AuditEvent : Type := {
  audit_field : string;
  oldValue : jsval;
  newValue : jsval
}.

(** [oldData.f]. *)
Definition stored (oldData : Row) (f : string) : jsval :=
  default JUndefined (oldData !! f).

(** One of the two comparisons of the transaction: where the stored
    field is not the requested value, the field goes into [updates] and
    an event onto [auditEvents]. *)
Definition compareField (oldData : Row) (f : string) (requested : jsval)
    (acc : Row * list AuditEvent) : Row * list AuditEvent :=
  if differs (stored oldData f) requested
  then (<[f := requested]> acc.1,
        acc.2 ++ [{| audit_field := f; oldValue := stored oldData f; newValue := requested |}])
  else acc.

(** A document of the [audit_trail] collection of a row, without its
    server timestamp. *)
Record AuditRecord (Ref : Type) : Type := {
  audited : Ref;
  changedBy : jsval;
  event : AuditEvent
}.
Arguments audited {Ref} _.
Arguments changedBy {Ref} _.
Arguments event {Ref} _.

Definition optional (a : option string) : jsval :=
  match a with
  | Some s => JStr s
  | None => JUndefined
  end.

Section UpdateRow.

(** The token service; the reference of a row document, which the
    database client refuses to build for some ids; and the values the
    database client accepts in a document. *)
Context {Ref : Type} `{Countable Ref}.
Variable verifyIdToken : string -> option DecodedToken.
Variable rowDocRef : string -> jsval -> jsval -> option Ref.
Variable storable : jsval -> bool.

Definition recordable (event : AuditEvent) : bool :=
  storable (JStr (audit_field event)) && storable (oldValue event)
  && storable (newValue event).

(** The body of the transaction: the rows and the new audit records it
    leaves when it commits, or nothing when it throws. *)
Definition transaction (email : option string) (ref : Ref)
    (newCostPool newCostSubPool : jsval) (rows : gmap Ref Row)
    : option (gmap Ref Row * list (AuditRecord Ref)) :=
  oldData ← rows !! ref;
  let '(updates, auditEvents) :=
    compareField oldData "cost_sub_pool" newCostSubPool
      (compareField oldData "cost_pool" newCostPool (∅, [])) in
  if 0 <? size updates then
    let updates := <["manually_edited" := JBool true]> updates in
    if negb (forallb storable (map snd (map_to_list updates))) then None else
    if negb (storable (optional email) && forallb recordable auditEvents) then None else
    Some (<[ref := updates ∪ oldData]> rows,
          map (fun event => {| audited := ref; changedBy := optional email; event := event |})
            auditEvents)
  else Some (rows, []).

Definition mayUpdate (decodedToken : DecodedToken) : bool :=
  given (token_tenantId decodedToken)
  && (bool_decide (token_role decodedToken = Some "admin")
      || bool_decide (token_role decodedToken = Some "uploader")).

(** [updateRowClassification]: the reply, the rows and the new audit
    records.  [commits] tells whether the database commits the
    transaction. *)
Definition updateRowClassification (commits : bool) (req : Request) (rows : gmap Ref Row)
    : Reply * gmap Ref Row * list (AuditRecord Ref) :=
  match caller verifyIdToken req with
  | Preflight => (Sent 204 "", rows, [])
  | NoToken => (Sent 401 "Unauthorized", rows, [])
  | BadToken => (Sent 401 "Invalid token.", rows, [])
  | Verified decodedToken =>
      if negb (mayUpdate decodedToken)
      then (Sent 403 "Forbidden: User does not have permission to update records.", rows, [])
      else
      match Get (body req) "jobId", Get (body req) "rowId",
            Get (body req) "newCostPool", Get (body req) "newCostSubPool" with
      | Normal jobId, Normal rowId, Normal newCostPool, Normal newCostSubPool =>
          if negb (truthy jobId) || negb (truthy rowId)
             || negb (differs newCostPool JUndefined)
             || negb (differs newCostSubPool JUndefined)
          then (Sent 400 "Missing required fields: jobId, rowId, newCostPool, newCostSubPool.",
                rows, [])
          else
          match rowDocRef (default "" (token_tenantId decodedToken)) jobId rowId with
          | None => (Unhandled, rows, [])
          | Some ref =>
              match transaction (token_email decodedToken) ref newCostPool newCostSubPool rows with
              | Some (rows', records) =>
                  if commits then (Sent 200 "Update successful.", rows', records)
                  else (Sent 500 "An internal error occurred.", rows, [])
              | None => (Sent 500 "An internal error occurred.", rows, [])
              end
          end
      | _, _, _, _ => (Unhandled, rows, [])
      end
  end.

End UpdateRow.

Section UpdateRowLemmas.

Context {Ref : Type} `{Countable Ref}.
Variable verifyIdToken : string -> option DecodedToken.
Variable rowDocRef : string -> jsval -> jsval -> option Ref.
Variable storable : jsval -> bool.

(** The fields a transaction sets, given what it read. *)
Definition written (oldData : Row) (newCostPool newCostSubPool : jsval) : Row :=
  <["manually_edited" := JBool true]>
    (compareField oldData "cost_sub_pool" newCostSubPool
       (compareField oldData "cost_pool" newCostPool (∅, []))).1.

Lemma transaction_Some email (ref : Ref) newCostPool newCostSubPool rows rows' records :
  transaction storable email ref newCostPool newCostSubPool rows = Some (rows', records) ->
  exists oldData,
    rows !! ref = Some oldData /\
    let acc := compareField oldData "cost_sub_pool" newCostSubPool
                 (compareField oldData "cost_pool" newCostPool (∅, [])) in
    (acc = (∅, []) /\ rows' = rows /\ records = []) \/
    (acc.2 <> [] /\
     rows' = <[ref := written oldData newCostPool newCostSubPool ∪ oldData]> rows /\
     records = map (fun event => {| audited := ref; changedBy := optional email;
                                    event := event |}) acc.2).
Proof.
  unfold transaction, written.
  destruct (rows !! ref) as [oldData|]; [|discriminate]. cbn [mbind option_bind].
  intros Htx. exists oldData. split; [done|]. cbv zeta. revert Htx.
  unfold compareField.
  destruct (differs (stored oldData "cost_pool") newCostPool);
    destruct (differs (stored oldData "cost_sub_pool") newCostSubPool); cbn [fst snd app].
  4: { intros [= <- <-]. by left. }
  all: match goal with |- context [0 <? size ?m] =>
         replace (0 <? size m) with true
           by (symmetry; apply Nat.ltb_lt, Nat.neq_0_lt_0, map_size_non_empty_iff,
                 insert_non_empty)
       end.
  all: destruct (negb (forallb storable _)); [discriminate|].
  all: destruct (negb _); [discriminate|].
  all: intros [= <- <-]; right; by repeat split.
Qed.

Lemma updateRowClassification_effect commits req (rows : gmap Ref Row) :
  let result := updateRowClassification verifyIdToken rowDocRef storable commits req rows in
  (result.1.2 = rows /\ result.2 = [] /\ forall message, result.1.1 <> Sent 200 message) \/
  exists decodedToken jobId rowId newCostPool newCostSubPool ref,
    caller verifyIdToken req = Verified decodedToken /\
    mayUpdate decodedToken = true /\
    Get (body req) "jobId" = Normal jobId /\
    Get (body req) "rowId" = Normal rowId /\
    Get (body req) "newCostPool" = Normal newCostPool /\
    Get (body req) "newCostSubPool" = Normal newCostSubPool /\
    (negb (truthy jobId) || negb (truthy rowId)
     || negb (differs newCostPool JUndefined)
     || negb (differs newCostSubPool JUndefined)) = false /\
    rowDocRef (default "" (token_tenantId decodedToken)) jobId rowId = Some ref /\
    commits = true /\
    result.1.1 = Sent 200 "Update successful." /\
    transaction storable (token_email decodedToken) ref newCostPool newCostSubPool rows
    = Some (result.1.2, result.2).
Proof.
  cbv zeta. unfold updateRowClassification.
  destruct (caller verifyIdToken req) as [| | |decodedToken]; try by left.
  destruct (mayUpdate decodedToken) eqn:Hmay; cbn [negb]; [|by left].
  destruct (Get (body req) "jobId") as [jobId|]; [|by left].
  destruct (Get (body req) "rowId") as [rowId|]; [|by left].
  destruct (Get (body req) "newCostPool") as [newCostPool|]; [|by left].
  destruct (Get (body req) "newCostSubPool") as [newCostSubPool|]; [|by left].
  destruct (_ || _) eqn:Hfields; [by left|].
  destruct (rowDocRef _ jobId rowId) as [ref|] eqn:Href; [|by left].
  destruct (transaction _ _ ref _ _ rows) as [[rows' records]|] eqn:Htx; [|by left].
  destruct commits; [|by left].
  right. exists decodedToken, jobId, rowId, newCostPool, newCostSubPool, ref.
  by repeat split.
Qed.

End UpdateRowLemmas.

(** The field [f] of the row document at [ref], where there is one. *)
Definition storedField `{Countable Ref} (rows : gmap Ref Row) (ref : Ref) (f : string)
    : option jsval :=
  row ← rows !! ref; row !! f.

(** No edit goes unrecorded.  Whatever the request and its reply, a
    field of a row document, other than the flag [manually_edited],
    that is not after the call what it was before is [cost_pool] or
    [cost_sub_pool]; the caller holds a verified token with a tenant
    and the role [admin] or [uploader]; the row is flagged
    [manually_edited]; and the call has added an audit record for that
    row and field with the caller's email, the value before and the
    value after. *)
Theorem updateRowClassification_audited `{Countable Ref}
    (verifyIdToken : string -> option DecodedToken)
    (rowDocRef : string -> jsval -> jsval -> option Ref) (storable : jsval -> bool)
    (commits : bool) (req : Request) (rows : gmap Ref Row) (ref : Ref) (f : string) :
  let result := updateRowClassification verifyIdToken rowDocRef storable commits req rows in
  f <> "manually_edited" ->
  storedField result.1.2 ref f <> storedField rows ref f ->
  exists decodedToken row row',
    caller verifyIdToken req = Verified decodedToken /\
    mayUpdate decodedToken = true /\
    rows !! ref = Some row /\
    result.1.2 !! ref = Some row' /\
    row' !! "manually_edited" = Some (JBool true) /\
    (f = "cost_pool" \/ f = "cost_sub_pool") /\
    In {| audited := ref; changedBy := optional (token_email decodedToken);
          event := {| audit_field := f; oldValue := stored row f;
                      newValue := stored row' f |} |} result.2.
Proof.
  cbv zeta. intros Hflag Hchanged.
  destruct (updateRowClassification_effect verifyIdToken rowDocRef storable commits req rows)
    as [(Hrows & _ & _) |
        (decodedToken & jobId & rowId & newCostPool & newCostSubPool & ref' &
         Hcaller & Hmay & _ & _ & _ & _ & _ & _ & _ & _ & Htx)];
    [by rewrite Hrows in Hchanged|].
  apply transaction_Some in Htx as (oldData & Hold & [(_ & Hrows & _) | (Hsome & Hrows & Hrecords)]);
    [by rewrite Hrows in Hchanged|].
  rewrite Hrows, Hrecords in *. clear Hrows Hrecords.
  unfold storedField in Hchanged.
  destruct (decide (ref' = ref)) as [->|Hne]; [|by rewrite lookup_insert_ne in Hchanged].
  rewrite lookup_insert_eq, Hold in Hchanged. cbn [mbind option_bind] in Hchanged.
  exists decodedToken, oldData, (written oldData newCostPool newCostSubPool ∪ oldData).
  rewrite lookup_insert_eq.
  split; [done|]. split; [done|]. split; [done|]. split; [done|].
  split; [apply lookup_union_Some_l; unfold written; by rewrite lookup_insert_eq|].
  revert Hchanged Hsome. unfold written, compareField, stored.
  destruct (differs (default JUndefined (oldData !! "cost_pool")) newCostPool);
    destruct (differs (default JUndefined (oldData !! "cost_sub_pool")) newCostSubPool);
    cbn [fst snd app map]; intros Hchanged Hsome; [| | |done].
  all: destruct (decide (f = "cost_pool")) as [->|Hpool];
    [|destruct (decide (f = "cost_sub_pool")) as [->|Hsub]].
  all: rewrite !lookup_union in *; simplify_map_eq.
  all: try (exfalso; apply Hchanged; by destruct (oldData !! _)).
  all: split; [by auto|].
  all: clear Hchanged; destruct (oldData !! "cost_pool"), (oldData !! "cost_sub_pool");
    cbn; by auto.
Qed.

Lemma transaction_settled `{Countable Ref} (storable : jsval -> bool) email (ref : Ref)
    newCostPool newCostSubPool (rows : gmap Ref Row) row :
  rows !! ref = Some row ->
  differs (stored row "cost_pool") newCostPool = false ->
  differs (stored row "cost_sub_pool") newCostSubPool = false ->
  transaction storable email ref newCostPool newCostSubPool rows = Some (rows, []).
Proof.
  intros Hrow Hpool Hsub. unfold transaction, compareField.
  rewrite Hrow. cbn [mbind option_bind]. by rewrite Hpool, Hsub.
Qed.

Lemma written_settled (oldData : Row) newCostPool newCostSubPool :
  differs newCostPool newCostPool = false ->
  differs newCostSubPool newCostSubPool = false ->
  let row' := written oldData newCostPool newCostSubPool ∪ oldData in
  differs (stored row' "cost_pool") newCostPool = false /\
  differs (stored row' "cost_sub_pool") newCostSubPool = false.
Proof.
  intros Hpool Hsub. cbv zeta. unfold written, compareField, stored.
  destruct (differs (default JUndefined (oldData !! "cost_pool")) newCostPool) eqn:Hp;
    destruct (differs (default JUndefined (oldData !! "cost_sub_pool")) newCostSubPool) eqn:Hs;
    cbn [fst snd].
  all: rewrite !lookup_union; simplify_map_eq.
  all: destruct (oldData !! "cost_pool"), (oldData !! "cost_sub_pool"); by cbn in *.
Qed.

(** Sample rows of one job, a database client that refuses ids that are
    not text and values that are [undefined], and an edit of a row. *)
Definition sampleRowDocRef (tenantId : string) (jobId rowId : jsval) : option string :=
  match jobId, rowId with
  | JStr jobId, JStr rowId => Some (tenantId +:+ "/" +:+ jobId +:+ "/" +:+ rowId)
  | _, _ => None
  end.

Definition sampleStorable (v : jsval) : bool :=
  match v with
  | JUndefined => false
  | _ => true
  end.

Definition sampleRow (pool subPool : string) : Row :=
  <["cost_pool" := JStr pool]>
    (<["cost_sub_pool" := JStr subPool]> (<["reasoning" := JStr "Hosting."]> (∅ : Row))).

Definition sampleStore : gmap string Row :=
  <["acme/job1/0" := sampleRow "IT" "Cloud"]>
    (<["acme/job1/1" := sampleRow "IT" "Cloud"]> (∅ : gmap string Row)).

Definition sampleEdit : Request :=
  sampleRequest "uploader-token"
    [("jobId", JStr "job1"); ("rowId", JStr "0");
     ("newCostPool", JStr "HR"); ("newCostSubPool", JStr "Cloud")].

Lemma updateRowClassification_audited_witness :
  exists decodedToken row row',
    caller sampleVerify sampleEdit = Verified decodedToken /\
    mayUpdate decodedToken = true /\
    sampleStore !! "acme/job1/0" = Some row /\
    (updateRowClassification sampleVerify sampleRowDocRef sampleStorable true sampleEdit
       sampleStore).1.2 !! "acme/job1/0" = Some row' /\
    row' !! "manually_edited" = Some (JBool true) /\
    ("cost_pool" = "cost_pool" \/ "cost_pool" = "cost_sub_pool") /\
    In {| audited := "acme/job1/0"; changedBy := optional (token_email decodedToken);
          event := {| audit_field := "cost_pool"; oldValue := stored row "cost_pool";
                      newValue := stored row' "cost_pool" |} |}
       (updateRowClassification sampleVerify sampleRowDocRef sampleStorable true sampleEdit
          sampleStore).2.
Proof.
  apply (updateRowClassification_audited sampleVerify sampleRowDocRef sampleStorable true
           sampleEdit sampleStore "acme/job1/0" "cost_pool").
  - discriminate.
  - vm_compute. discriminate.
Defined.

(** An edit that has succeeded is not recorded twice.  When a request
    whose two new values are primitive values other than [NaN] has been
    answered with status 200, the same request sent again is answered
    with status 200, writes nothing and adds no audit record. *)
Theorem updateRowClassification_repeat `{Countable Ref}
    (verifyIdToken : string -> option DecodedToken)
    (rowDocRef : string -> jsval -> jsval -> option Ref) (storable : jsval -> bool)
    (commits : bool) (req : Request) (rows rows' : gmap Ref Row)
    (message : string) (records : list (AuditRecord Ref))
    (newCostPool newCostSubPool : jsval) :
  updateRowClassification verifyIdToken rowDocRef storable commits req rows
  = (Sent 200 message, rows', records) ->
  Get (body req) "newCostPool" = Normal newCostPool ->
  Get (body req) "newCostSubPool" = Normal newCostSubPool ->
  differs newCostPool newCostPool = false ->
  differs newCostSubPool newCostSubPool = false ->
  updateRowClassification verifyIdToken rowDocRef storable true req rows'
  = (Sent 200 "Update successful.", rows', []).
Proof.
  intros Hfirst HnewPool HnewSub Hpool Hsub.
  destruct (updateRowClassification_effect verifyIdToken rowDocRef storable commits req rows)
    as [(_ & _ & Hreply) |
        (decodedToken & jobId & rowId & newCostPool' & newCostSubPool' & ref &
         Hcaller & Hmay & HjobId & HrowId & HnewPool' & HnewSub' & Hfields & Href & _ & _ & Htx)];
    [exfalso; apply (Hreply message); by rewrite Hfirst|].
  rewrite Hfirst in Htx. cbn [fst snd] in Htx.
  rewrite HnewPool in HnewPool'. injection HnewPool' as <-.
  rewrite HnewSub in HnewSub'. injection HnewSub' as <-.
  assert (transaction storable (token_email decodedToken) ref newCostPool newCostSubPool rows'
          = Some (rows', [])) as Hsecond.
  { destruct (transaction_Some storable _ _ _ _ _ _ _ Htx)
      as (oldData & Hold & [(_ & Hrows & Hrecords) | (_ & -> & _)]).
    - rewrite Hrows, Hrecords in *. exact Htx.
    - destruct (written_settled oldData newCostPool newCostSubPool Hpool Hsub) as [Hp Hs].
      eapply transaction_settled; [by rewrite lookup_insert_eq|done|done]. }
  unfold updateRowClassification.
  by rewrite Hcaller, Hmay, HjobId, HrowId, HnewPool, HnewSub, Hfields, Href, Hsecond.
Qed.

Lemma updateRowClassification_repeat_witness :
  updateRowClassification sampleVerify sampleRowDocRef sampleStorable true sampleEdit
    (updateRowClassification sampleVerify sampleRowDocRef sampleStorable true sampleEdit
       sampleStore).1.2
  = (Sent 200 "Update successful.",
     (updateRowClassification sampleVerify sampleRowDocRef sampleStorable true sampleEdit
        sampleStore).1.2,
     []).
Proof.
  eapply (updateRowClassification_repeat sampleVerify sampleRowDocRef sampleStorable true
            sampleEdit sampleStore _ "Update successful." _ (JStr "HR") (JStr "Cloud"));
    [|reflexivity..].
  vm_compute. reflexivity.
Defined.

(** A call reaches one row document at most: that of the caller's own
    tenant and of the job and row the request names.  Every other
    document is after the call what it was before, and no document is
    created or deleted. *)
Theorem updateRowClassification_scope `{Countable Ref}
    (verifyIdToken : string -> option DecodedToken)
    (rowDocRef : string -> jsval -> jsval -> option Ref) (storable : jsval -> bool)
    (commits : bool) (req : Request) (rows : gmap Ref Row) (ref : Ref) :
  (forall decodedToken jobId rowId,
     caller verifyIdToken req = Verified decodedToken ->
     mayUpdate decodedToken = true ->
     Get (body req) "jobId" = Normal jobId ->
     Get (body req) "rowId" = Normal rowId ->
     rowDocRef (default "" (token_tenantId decodedToken)) jobId rowId = Some ref ->
     rows !! ref = None) ->
  (updateRowClassification verifyIdToken rowDocRef storable commits req rows).1.2 !! ref
  = rows !! ref.
Proof.
  intros Hother.
  destruct (updateRowClassification_effect verifyIdToken rowDocRef storable commits req rows)
    as [(Hrows & _ & _) |
        (decodedToken & jobId & rowId & newCostPool & newCostSubPool & ref' &
         Hcaller & Hmay & HjobId & HrowId & _ & _ & _ & Href & _ & _ & Htx)];
    [by rewrite Hrows|].
  apply transaction_Some in Htx as (oldData & Hold & [(_ & -> & _) | (_ & -> & _)]); [done|].
  destruct (decide (ref' = ref)) as [->|Hne]; [|by rewrite lookup_insert_ne].
  rewrite (Hother decodedToken jobId rowId Hcaller Hmay HjobId HrowId Href) in Hold.
  discriminate.
Qed.

Lemma updateRowClassification_scope_witness :
  (updateRowClassification sampleVerify sampleRowDocRef sampleStorable true sampleEdit
     sampleStore).1.2 !! "acme/job1/1"
  = sampleStore !! "acme/job1/1".
Proof.
  apply updateRowClassification_scope.
  intros decodedToken jobId rowId Hcaller _ HjobId HrowId Href.
  vm_compute in Hcaller. injection Hcaller as <-.
  vm_compute in HjobId. injection HjobId as <-.
  vm_compute in HrowId. injection HrowId as <-.
  vm_compute in Href. discriminate.
Defined.
